(** * Task tracker: the storage component of [task-cli.py]

    A shallow embedding of the class [TaskStorage] and of the parts of
    Python's standard library it leans on ([str.strip], [int], [json.dump],
    [json.load]), followed by the properties of the storage component.

    Conventions of the model:
    - a Python [str] held by the store is a [string] whose characters are the
      code points 0..255; the text of the persisted file is a list of code
      points ([text]), so that every escape of a JSON document has a value;
    - Python integers are unbounded: [Z];
    - every exception raised by the storage component is a [ValueError]; the
      model keeps one constructor per [raise] site;
    - floating-point numbers of a JSON document are kept as their lexeme;
      arithmetic on them is not modelled, and the store never creates one. *)

From Stdlib Require Import ZArith NArith List String Ascii Bool Lia Sorted.
From Stdlib Require Import DecimalN DecimalPos DecimalFacts.
Import ListNotations.

Local Open Scope string_scope.
Local Open Scope list_scope.

(** ** Text *)

(** A code point sequence: the decoded content of the persisted file. *)
Definition text := list N.

Definition code (s : string) : text :=
  map N_of_ascii (list_ascii_of_string s).

Fixpoint uncode (t : text) : option string :=
  match t with
  | [] => Some EmptyString
  | c :: r =>
      if (c <? 256)%N then
        match uncode r with
        | Some s => Some (String (ascii_of_N c) s)
        | None => None
        end
      else None
  end.

Fixpoint text_eqb (a b : text) : bool :=
  match a, b with
  | [], [] => true
  | x :: a', y :: b' => (x =? y)%N && text_eqb a' b'
  | _, _ => false
  end.

(** ** Python [str] operations used by the store *)

(** Truth value of a string: the empty string is false. *)
Definition truthy (s : string) : bool :=
  match s with
  | EmptyString => false
  | String _ _ => true
  end.

(** [str.isspace] on one character, restricted to the code points 0..255:
    TAB..CR, the separators FS..US, space, NEL and the no-break space. *)
Definition isspace (c : ascii) : bool :=
  let n := N_of_ascii c in
  ((9 <=? n) && (n <=? 13) || (28 <=? n) && (n <=? 32)
   || (n =? 133) || (n =? 160))%N.

Fixpoint lstrip (s : string) : string :=
  match s with
  | EmptyString => EmptyString
  | String c r => if isspace c then lstrip r else s
  end.

Fixpoint rstrip (s : string) : string :=
  match s with
  | EmptyString => EmptyString
  | String c r =>
      match rstrip r with
      | EmptyString => if isspace c then EmptyString else String c EmptyString
      | r' => String c r'
      end
  end.

(** [s.strip()] *)
Definition strip (s : string) : string := rstrip (lstrip s).

(** [s[:n]] *)
Fixpoint take (n : nat) (s : string) : string :=
  match n, s with
  | S n', String c r => String c (take n' r)
  | _, _ => EmptyString
  end.

(** [s.ljust(w)], which is what the format field [{:<w}] does to a string. *)
Fixpoint spaces (n : nat) : string :=
  match n with
  | O => EmptyString
  | S n' => String " " (spaces n')
  end.

Definition ljust (w : nat) (s : string) : string :=
  s ++ spaces (w - String.length s).

(** ** Decimal numerals *)

(** The digits of a decimal numeral, most significant first, as code points. *)
Fixpoint uint_text (d : Decimal.uint) : text :=
  match d with
  | Decimal.Nil => []
  | Decimal.D0 u => 48 :: uint_text u
  | Decimal.D1 u => 49 :: uint_text u
  | Decimal.D2 u => 50 :: uint_text u
  | Decimal.D3 u => 51 :: uint_text u
  | Decimal.D4 u => 52 :: uint_text u
  | Decimal.D5 u => 53 :: uint_text u
  | Decimal.D6 u => 54 :: uint_text u
  | Decimal.D7 u => 55 :: uint_text u
  | Decimal.D8 u => 56 :: uint_text u
  | Decimal.D9 u => 57 :: uint_text u
  end%N.

(** [repr] of a Python integer. *)
Definition int_repr (z : Z) : text :=
  match z with
  | Z0 => [48%N]
  | Zpos p => uint_text (Pos.to_uint p)
  | Zneg p => 45%N :: uint_text (Pos.to_uint p)
  end.

Fixpoint string_of_text (t : text) : string :=
  match t with
  | [] => EmptyString
  | c :: r => String (ascii_of_N c) (string_of_text r)
  end.

(** [str(z)] for an integer [z]. *)
Definition str_of_int (z : Z) : string := string_of_text (int_repr z).

(** ** [int(s)] on a string

    CPython maps the non-ASCII white space of the string to a blank, skips
    white space on both sides, reads an optional sign and then decimal digits
    that single underscores may separate.  Any other shape is a [ValueError],
    here [None].  (The interpreter's optional bound on the length of a
    numeral is not modelled.) *)

Definition int_space (c : ascii) : bool :=
  let n := N_of_ascii c in
  ((9 <=? n) && (n <=? 13) || (n =? 32) || (n =? 133) || (n =? 160))%N.

Definition digit_val (c : ascii) : option Z :=
  let n := N_of_ascii c in
  if ((48 <=? n) && (n <=? 57))%N then Some (Z.of_N n - 48)%Z else None.

Fixpoint skip_int_space (s : string) : string :=
  match s with
  | EmptyString => EmptyString
  | String c r => if int_space c then skip_int_space r else s
  end.

Fixpoint all_int_space (s : string) : bool :=
  match s with
  | EmptyString => true
  | String c r => int_space c && all_int_space r
  end.

(** The digits after the first one; [acc] is the value read so far. *)
Fixpoint int_digits (acc : Z) (s : string) : option (Z * string) :=
  match s with
  | EmptyString => Some (acc, s)
  | String c r =>
      match digit_val c with
      | Some d => int_digits (10 * acc + d) r
      | None =>
          if Ascii.eqb c "_" then
            match r with
            | String c' r' =>
                match digit_val c' with
                | Some d => int_digits (10 * acc + d) r'
                | None => None
                end
            | EmptyString => None
            end
          else Some (acc, s)
      end
  end.

Definition int_sign (s : string) : bool * string :=
  match s with
  | String c r =>
      if Ascii.eqb c "-" then (true, r)
      else if Ascii.eqb c "+" then (false, r)
      else (false, s)
  | EmptyString => (false, s)
  end.

Definition int_of_str (s : string) : option Z :=
  let (neg, body) := int_sign (skip_int_space s) in
  match body with
  | String c r =>
      match digit_val c with
      | Some d =>
          match int_digits d r with
          | Some (v, rest) =>
              if all_int_space rest then Some (if neg then - v else v)%Z
              else None
          | None => None
          end
      | None => None
      end
  | EmptyString => None
  end.

(** ** JSON values

    What [json.load] returns: [None], booleans, integers, floats, strings,
    lists and dictionaries with string keys.  A dictionary keeps its keys in
    insertion order and holds each key once. *)

#[local] Unset Elimination Schemes.

Inductive json : Type :=
| JNull
| JBool (b : bool)
| JInt (z : Z)
| JFloat (lexeme : text)
| JStr (s : text)
| JArr (xs : list json)
| JObj (kvs : list (text * json)).

#[local] Set Elimination Schemes.

(** [d[k] = v] on a dictionary: a key already present keeps its position. *)
Fixpoint dict_set (k : text) (v : json) (kvs : list (text * json))
  : list (text * json) :=
  match kvs with
  | [] => [(k, v)]
  | (k', v') :: r =>
      if text_eqb k' k then (k, v) :: r else (k', v') :: dict_set k v r
  end.

Definition dict_of_pairs (pairs : list (text * json)) : list (text * json) :=
  fold_left (fun d kv => dict_set (fst kv) (snd kv) d) pairs [].

(** ** [json.dump(obj, file, indent=4)]

    The encoder escapes everything outside the printable ASCII range
    ([ensure_ascii] is left at its default), separates items by a comma and a
    line break, and indents each nesting level by four blanks. *)

Definition hex_digit (n : N) : N :=
  if (n <? 10)%N then (48 + n)%N else (87 + n)%N.

(** The escape [\uXXXX] of a code point below 65536. *)
Definition u_escape (c : N) : text :=
  [92; 117; hex_digit (c / 4096 mod 16); hex_digit (c / 256 mod 16);
   hex_digit (c / 16 mod 16); hex_digit (c mod 16)]%N.

Definition escape_char (c : N) : text :=
  (if c =? 34 then [92; 34]                 (* the double quote *)
   else if c =? 92 then [92; 92]            (* the backslash *)
   else if c =? 10 then [92; 110]           (* \n *)
   else if c =? 13 then [92; 114]           (* \r *)
   else if c =? 9 then [92; 116]            (* \t *)
   else if c =? 12 then [92; 102]           (* \f *)
   else if c =? 8 then [92; 98]             (* \b *)
   else if (32 <=? c) && (c <=? 126) then [c]
   else if c <? 65536 then u_escape c
   else
     let v := c - 65536 in
     u_escape (N.lor 55296 (N.land (N.shiftr v 10) 1023))
     ++ u_escape (N.lor 56320 (N.land v 1023)))%N.

Definition encode_basestring_ascii (s : text) : text :=
  34%N :: flat_map escape_char s ++ [34%N].

Definition newline_indent (level : nat) : text :=
  10%N :: repeat 32%N (4 * level).

Fixpoint join (sep : text) (parts : list text) : text :=
  match parts with
  | [] => []
  | [p] => p
  | p :: r => p ++ sep ++ join sep r
  end.

Fixpoint encode (level : nat) (v : json) : text :=
  match v with
  | JNull => code "null"
  | JBool true => code "true"
  | JBool false => code "false"
  | JInt z => int_repr z
  | JFloat lexeme => lexeme
  | JStr s => encode_basestring_ascii s
  | JArr [] => code "[]"
  | JArr xs =>
      code "[" ++ newline_indent (S level)
      ++ join (code "," ++ newline_indent (S level))
              (map (encode (S level)) xs)
      ++ newline_indent level ++ code "]"
  | JObj [] => code "{}"
  | JObj kvs =>
      code "{" ++ newline_indent (S level)
      ++ join (code "," ++ newline_indent (S level))
              (map (fun kv => encode_basestring_ascii (fst kv) ++ code ": "
                              ++ encode (S level) (snd kv)) kvs)
      ++ newline_indent level ++ code "}"
  end.

Definition json_dumps (v : json) : text := encode 0 v.

(** ** [json.load(file)]

    The decoder is recursive on the nesting of the document; here it runs on
    fuel.  [OutOfFuel] is kept apart from [Invalid] (the [JSONDecodeError])
    so that the fuel [json_loads] provides can be shown to suffice.  The
    interpreter's recursion limit is not modelled. *)

Inductive parsed (A : Type) : Type :=
| Parsed (a : A) (rest : text)
| Invalid
| OutOfFuel.

Arguments Parsed {A} a rest.
Arguments Invalid {A}.
Arguments OutOfFuel {A}.

Definition map_parsed {A B : Type} (f : A -> B) (p : parsed A) : parsed B :=
  match p with
  | Parsed a rest => Parsed (f a) rest
  | Invalid => Invalid
  | OutOfFuel => OutOfFuel
  end.

(** The blanks the decoder skips: space, TAB, LF, CR. *)
Definition is_ws (c : N) : bool :=
  ((c =? 32) || (c =? 9) || (c =? 10) || (c =? 13))%N.

Fixpoint skip_ws (t : text) : text :=
  match t with
  | c :: r => if is_ws c then skip_ws r else t
  | [] => []
  end.

(** [head_is c t] is the rest of [t] after a leading [c]. *)
Definition head_is (c : N) (t : text) : option text :=
  match t with
  | x :: r => if (x =? c)%N then Some r else None
  | [] => None
  end.

Fixpoint starts_with (p t : text) : option text :=
  match p, t with
  | [], _ => Some t
  | x :: p', y :: t' => if (x =? y)%N then starts_with p' t' else None
  | _ :: _, [] => None
  end.

Definition hex_val (c : N) : option N :=
  (if (48 <=? c) && (c <=? 57) then Some (c - 48)
   else if (97 <=? c) && (c <=? 102) then Some (c - 87)
   else if (65 <=? c) && (c <=? 70) then Some (c - 55)
   else None)%N.

Definition hex4 (t : text) : option (N * text) :=
  match t with
  | a :: b :: c :: d :: r =>
      match hex_val a, hex_val b, hex_val c, hex_val d with
      | Some x, Some y, Some z, Some w =>
          Some (4096 * x + 256 * y + 16 * z + w, r)%N
      | _, _, _, _ => None
      end
  | _ => None
  end.

Definition is_high_surrogate (c : N) : bool :=
  ((55296 <=? c) && (c <=? 56319))%N.

Definition is_low_surrogate (c : N) : bool :=
  ((56320 <=? c) && (c <=? 57343))%N.

Definition join_surrogates (hi lo : N) : N :=
  (65536 + N.lor (N.shiftl (N.land hi 1023) 10) (N.land lo 1023))%N.

(** An escaped low surrogate at the head of [t]: the second half of a pair. *)
Definition low_escape (t : text) : option (N * text) :=
  match t with
  | a :: b :: r =>
      if ((a =? 92) && (b =? 117))%N then
        match hex4 r with
        | Some (u, r') => if is_low_surrogate u then Some (u, r') else None
        | None => None
        end
      else None
  | _ => None
  end.

Definition simple_escape (c : N) : option N :=
  (if c =? 34 then Some 34
   else if c =? 92 then Some 92
   else if c =? 47 then Some 47
   else if c =? 98 then Some 8
   else if c =? 102 then Some 12
   else if c =? 110 then Some 10
   else if c =? 114 then Some 13
   else if c =? 116 then Some 9
   else None)%N.

(** The string that starts after an opening quote, in strict mode: control
    characters must be escaped. *)
Fixpoint scanstring (fuel : nat) (t : text) : parsed text :=
  match fuel with
  | O => OutOfFuel
  | S f =>
      match t with
      | [] => Invalid
      | c :: r =>
          if (c =? 34)%N then Parsed [] r
          else if (c =? 92)%N then
            match r with
            | [] => Invalid
            | e :: r1 =>
                if (e =? 117)%N then
                  match hex4 r1 with
                  | None => Invalid
                  | Some (u, r2) =>
                      match (if is_high_surrogate u then low_escape r2
                             else None) with
                      | Some (u2, r3) =>
                          map_parsed (cons (join_surrogates u u2))
                                     (scanstring f r3)
                      | None => map_parsed (cons u) (scanstring f r2)
                      end
                  end
                else
                  match simple_escape e with
                  | Some x => map_parsed (cons x) (scanstring f r1)
                  | None => Invalid
                  end
            end
          else if (c <=? 31)%N then Invalid
          else map_parsed (cons c) (scanstring f r)
      end
  end.

Definition is_digit (c : N) : bool := ((48 <=? c) && (c <=? 57))%N.

Fixpoint span_digits (t : text) : text * text :=
  match t with
  | c :: r =>
      if is_digit c then let (d, r') := span_digits r in (c :: d, r')
      else ([], t)
  | [] => ([], [])
  end.

Fixpoint digits_value (acc : N) (d : text) : N :=
  match d with
  | [] => acc
  | c :: r => digits_value (10 * acc + (c - 48)) r
  end.

(** The integer part of a number: a single [0], or a digit [1..9] followed
    by digits. *)
Definition int_part (t : text) : option (text * text) :=
  match t with
  | c :: r =>
      if (c =? 48)%N then Some ([c], r)
      else if is_digit c then let (d, r') := span_digits r in Some (c :: d, r')
      else None
  | [] => None
  end.

(** A fraction is read only when a digit follows the point. *)
Definition frac_part (t : text) : text * text :=
  match t with
  | p :: d :: r =>
      if (p =? 46)%N && is_digit d then
        let (ds, r') := span_digits r in (p :: d :: ds, r')
      else ([], t)
  | _ => ([], t)
  end.

(** An exponent is read only when it has a digit; otherwise the decoder
    backtracks to the [e]. *)
Definition exp_part (t : text) : text * text :=
  match t with
  | e :: r =>
      if ((e =? 101) || (e =? 69))%N then
        let (sg, r1) :=
          match r with
          | s :: r' => if ((s =? 45) || (s =? 43))%N then ([s], r') else ([], r)
          | [] => ([], r)
          end in
        let (ds, r2) := span_digits r1 in
        match ds with
        | [] => ([], t)
        | _ :: _ => (e :: sg ++ ds, r2)
        end
      else ([], t)
  | [] => ([], t)
  end.

Definition match_number (t : text) : option (json * text) :=
  let (neg, t1) :=
    match t with
    | c :: r => if (c =? 45)%N then (true, r) else (false, t)
    | [] => (false, t)
    end in
  match int_part t1 with
  | None => None
  | Some (ds, r1) =>
      let (frac, r2) := frac_part r1 in
      let (ex, r3) := exp_part r2 in
      match frac, ex with
      | [], [] =>
          let n := Z.of_N (digits_value 0 ds) in
          Some (JInt (if neg then - n else n)%Z, r3)
      | _, _ =>
          Some (JFloat ((if neg then [45%N] else []) ++ ds ++ frac ++ ex), r3)
      end
  end.

(** The literals [null], [true], [false], [NaN], [Infinity], [-Infinity]. *)
Definition constant (t : text) : option (json * text) :=
  match starts_with (code "null") t with
  | Some r => Some (JNull, r)
  | None =>
  match starts_with (code "true") t with
  | Some r => Some (JBool true, r)
  | None =>
  match starts_with (code "false") t with
  | Some r => Some (JBool false, r)
  | None =>
  match starts_with (code "NaN") t with
  | Some r => Some (JFloat (code "NaN"), r)
  | None =>
  match starts_with (code "Infinity") t with
  | Some r => Some (JFloat (code "Infinity"), r)
  | None =>
  match starts_with (code "-Infinity") t with
  | Some r => Some (JFloat (code "-Infinity"), r)
  | None => None
  end end end end end end.

(** [scan_once] reads one value at the head of the text; [parse_items] the
    items of a non-empty list up to its bracket; [parse_members] the members
    of a non-empty dictionary up to its brace. *)
Fixpoint scan_once (fuel : nat) (t : text) : parsed json :=
  match fuel with
  | O => OutOfFuel
  | S f =>
      match t with
      | [] => Invalid
      | c :: r =>
          if (c =? 34)%N then map_parsed JStr (scanstring (S (List.length r)) r)
          else if (c =? 123)%N then
            match head_is 125 (skip_ws r) with
            | Some r' => Parsed (JObj []) r'
            | None =>
                map_parsed (fun ps => JObj (dict_of_pairs ps))
                           (parse_members f (skip_ws r))
            end
          else if (c =? 91)%N then
            match head_is 93 (skip_ws r) with
            | Some r' => Parsed (JArr []) r'
            | None => map_parsed JArr (parse_items f (skip_ws r))
            end
          else
            match constant t with
            | Some (v, r') => Parsed v r'
            | None =>
                match match_number t with
                | Some (v, r') => Parsed v r'
                | None => Invalid
                end
            end
      end
  end

with parse_items (fuel : nat) (t : text) : parsed (list json) :=
  match fuel with
  | O => OutOfFuel
  | S f =>
      match scan_once f t with
      | Parsed v r =>
          let r1 := skip_ws r in
          match head_is 93 r1 with
          | Some r2 => Parsed [v] r2
          | None =>
              match head_is 44 r1 with
              | Some r2 => map_parsed (cons v) (parse_items f (skip_ws r2))
              | None => Invalid
              end
          end
      | Invalid => Invalid
      | OutOfFuel => OutOfFuel
      end
  end

with parse_members (fuel : nat) (t : text) : parsed (list (text * json)) :=
  match fuel with
  | O => OutOfFuel
  | S f =>
      match head_is 34 t with
      | None => Invalid
      | Some r =>
          match scanstring (S (List.length r)) r with
          | Parsed k r1 =>
              match head_is 58 (skip_ws r1) with
              | None => Invalid
              | Some r2 =>
                  match scan_once f (skip_ws r2) with
                  | Parsed v r3 =>
                      let r4 := skip_ws r3 in
                      match head_is 125 r4 with
                      | Some r5 => Parsed [(k, v)] r5
                      | None =>
                          match head_is 44 r4 with
                          | Some r5 =>
                              map_parsed (cons (k, v))
                                         (parse_members f (skip_ws r5))
                          | None => Invalid
                          end
                      end
                  | Invalid => Invalid
                  | OutOfFuel => OutOfFuel
                  end
              end
          | Invalid => Invalid
          | OutOfFuel => OutOfFuel
          end
      end
  end.

(** The whole document: one value between blanks, nothing after it. *)
Definition decode (t : text) : parsed json :=
  match scan_once (2 * List.length t + 1) (skip_ws t) with
  | Parsed v r =>
      match skip_ws r with
      | [] => Parsed v []
      | _ :: _ => Invalid
      end
  | Invalid => Invalid
  | OutOfFuel => OutOfFuel
  end.

(** [json.loads]: [None] is the [JSONDecodeError]. *)
Definition json_loads (t : text) : option json :=
  match decode t with
  | Parsed v _ => Some v
  | _ => None
  end.

(** ** The [in] operator on a loaded document

    [x in d] looks for a key in a dictionary, for an equal item in a list and
    for a substring in a string; on anything else it raises a [TypeError],
    here [None]. *)

Fixpoint is_prefix (p t : text) : bool :=
  match p, t with
  | [], _ => true
  | x :: p', y :: t' => (x =? y)%N && is_prefix p' t'
  | _ :: _, [] => false
  end.

Fixpoint is_substring (p t : text) : bool :=
  is_prefix p t ||
  match t with
  | [] => false
  | _ :: t' => is_substring p t'
  end.

Definition py_in (x : text) (d : json) : option bool :=
  match d with
  | JObj kvs => Some (existsb (fun kv => text_eqb (fst kv) x) kvs)
  | JArr xs =>
      Some (existsb (fun v => match v with
                              | JStr s => text_eqb s x
                              | _ => false
                              end) xs)
  | JStr s => Some (is_substring x s)
  | JNull | JBool _ | JInt _ | JFloat _ => None
  end.

(** ** The persisted file

    [content] is the text of [tasks.json] ([None] while the file does not
    exist); [writes] counts the times the file has been written. *)

Record Disk : Type := { content : option text; writes : nat }.

(** [json.dump(v, file, indent=4)] on the file opened for writing. *)
Definition dump (v : json) (d : Disk) : Disk :=
  {| content := Some (json_dumps v); writes := S (writes d) |}.

(** ** [TaskStorage.__init__]

    The constructor leaves [self.data] as a raw document: it checks two keys
    and nothing else.  [Crashed] is the [TypeError] of the key test on a
    document that is no container; no handler of the program catches it. *)

Definition default_data : json :=
  JObj [(code "tasks", JArr []); (code "count", JInt 0)].

Inductive init_result : Type :=
| Started (data : json) (d : Disk)
| Crashed.

Definition init (d : Disk) : init_result :=
  let data := default_data in
  match content d with
  | None => Started data (dump data d)
  | Some t =>
      match t with
      | [] => Started data (dump data d)
      | _ :: _ =>
          match json_loads t with
          | None => Started data (dump data d)
          | Some loaded =>
              match py_in (code "tasks") loaded with
              | None => Crashed
              | Some false => Started data d
              | Some true =>
                  match py_in (code "count") loaded with
                  | None => Crashed
                  | Some false => Started data d
                  | Some true => Started loaded d
                  end
              end
          end
      end
  end.

(** ** The state of a well-shaped store

    The operations of the store read [self.data] as a dictionary with a list
    of task dictionaries under ["tasks"] and an integer under ["count"]. *)

Module Task.

Record t : Type := {
  id : Z;
  description : string;
  status : string;
  createdAt : string;
  updatedAt : option string
}.

End Task.

Record Data : Type := { tasks : list Task.t; count : Z }.

Definition task_to_json (t : Task.t) : json :=
  JObj [(code "id", JInt (Task.id t));
        (code "description", JStr (code (Task.description t)));
        (code "status", JStr (code (Task.status t)));
        (code "createdAt", JStr (code (Task.createdAt t)));
        (code "updatedAt",
         match Task.updatedAt t with
         | Some u => JStr (code u)
         | None => JNull
         end)].

Definition to_json (d : Data) : json :=
  JObj [(code "tasks", JArr (map task_to_json (tasks d)));
        (code "count", JInt (count d))].

Definition task_of_json (v : json) : option Task.t :=
  match v with
  | JObj [(k1, JInt i); (k2, JStr d); (k3, JStr s); (k4, JStr c); (k5, u)] =>
      if text_eqb k1 (code "id") && text_eqb k2 (code "description")
         && text_eqb k3 (code "status") && text_eqb k4 (code "createdAt")
         && text_eqb k5 (code "updatedAt")
      then
        match uncode d, uncode s, uncode c with
        | Some d', Some s', Some c' =>
            match u with
            | JNull => Some (Task.Build_t i d' s' c' None)
            | JStr x =>
                match uncode x with
                | Some x' => Some (Task.Build_t i d' s' c' (Some x'))
                | None => None
                end
            | _ => None
            end
        | _, _, _ => None
        end
      else None
  | _ => None
  end.

Fixpoint tasks_of_json (vs : list json) : option (list Task.t) :=
  match vs with
  | [] => Some []
  | v :: r =>
      match task_of_json v, tasks_of_json r with
      | Some t, Some ts => Some (t :: ts)
      | _, _ => None
      end
  end.

(** The store state a loaded document stands for, when it is well shaped. *)
Definition of_json (v : json) : option Data :=
  match v with
  | JObj [(k1, JArr vs); (k2, JInt c)] =>
      if text_eqb k1 (code "tasks") && text_eqb k2 (code "count") then
        match tasks_of_json vs with
        | Some ts => Some (Build_Data ts c)
        | None => None
        end
      else None
  | _ => None
  end.

(** ** Exceptions and the state of a run

    Every exception of the storage component is a [ValueError]; one
    constructor stands for each [raise] site.  [BadTimestamp] is the
    [ValueError] of [datetime.fromisoformat] on a malformed [createdAt]. *)

(** The [task_id] argument, of type [Union[str, int]]. *)
Inductive id_arg : Type :=
| IdStr (s : string)
| IdInt (n : Z).

(** [int(task_id)] *)
Definition int_of_arg (a : id_arg) : option Z :=
  match a with
  | IdStr s => int_of_str s
  | IdInt n => Some n
  end.

Inductive error : Type :=
| EmptyDescription              (* Task description cannot be empty *)
| InvalidTaskId (a : id_arg)    (* Invalid task ID: _. Must be a number. *)
| InvalidStatus (s : option string)  (* Invalid status: _. Must be one of _ *)
| TaskNotFound (n : Z)          (* Task with ID _ not found *)
| BadTimestamp (s : string).

(** The two error kinds of the specification. *)
Inductive error_kind : Type := InvalidArgument | NotFound.

Definition kind_of (e : error) : option error_kind :=
  match e with
  | EmptyDescription | InvalidTaskId _ | InvalidStatus _ => Some InvalidArgument
  | TaskNotFound _ => Some NotFound
  | BadTimestamp _ => None
  end.

(** [data] is [self.data]; [stdout] lists the lines printed so far, one
    string for each call of [print]. *)
Record World : Type := { data : Data; disk : Disk; stdout : list string }.

Inductive outcome (A : Type) : Type :=
| Returned (a : A)
| Raised (e : error).

Arguments Returned {A} a.
Arguments Raised {A} e.

(** A method of the store: it runs on a world, leaves a world, and returns
    or raises.  What was changed before a [raise] stays changed. *)
Definition M (A : Type) : Type := World -> World * outcome A.

Definition ret {A : Type} (a : A) : M A := fun w => (w, Returned a).

Definition bind {A B : Type} (c : M A) (k : A -> M B) : M B :=
  fun w =>
    match c w with
    | (w', Returned a) => k a w'
    | (w', Raised e) => (w', Raised e)
    end.

Definition raise {A : Type} (e : error) : M A := fun w => (w, Raised e).

Declare Scope store_scope.
Delimit Scope store_scope with store.

Notation "x <- c ;; k" := (bind c (fun x => k))
  (at level 61, c at next level, right associativity) : store_scope.
Notation "c ;; k" := (bind c (fun _ => k))
  (at level 61, right associativity) : store_scope.

Local Open Scope store_scope.

Definition get_data : M Data := fun w => (w, Returned (data w)).

Definition set_tasks (ts : list Task.t) : M unit :=
  fun w =>
    ({| data := {| tasks := ts; count := count (data w) |};
        disk := disk w; stdout := stdout w |}, Returned tt).

Definition set_count (c : Z) : M unit :=
  fun w =>
    ({| data := {| tasks := tasks (data w); count := c |};
        disk := disk w; stdout := stdout w |}, Returned tt).

Definition print (line : string) : M unit :=
  fun w =>
    ({| data := data w; disk := disk w; stdout := stdout w ++ [line] |},
     Returned tt).

(** [TaskStorage._save_data] *)
Definition _save_data : M unit :=
  fun w =>
    ({| data := data w; disk := dump (to_json (data w)) (disk w);
        stdout := stdout w |}, Returned tt).

(** ** [TaskStorage.new_task]

    [now] is the value of [datetime.now().isoformat()]. *)
Definition new_task (description now : string) : M Z :=
  if negb (truthy (strip description)) then raise EmptyDescription
  else
    d <- get_data ;;
    let new_count := (count d + 1)%Z in
    let new_task := {| Task.id := new_count;
                       Task.description := description;
                       Task.status := "todo";
                       Task.createdAt := now;
                       Task.updatedAt := None |} in
    set_tasks (tasks d ++ [new_task]) ;;
    set_count new_count ;;
    _save_data ;;
    ret new_count.

(** ** [TaskStorage.update_task] *)

Definition valid_statuses : list string := ["todo"; "in-progress"; "done"].

(** [status in valid_statuses] *)
Definition status_in (status : option string) (l : list string) : bool :=
  match status with
  | Some s => existsb (String.eqb s) l
  | None => false
  end.

(** The truth value of an [Optional[str]]: [None] and the empty string are
    false. *)
Definition provided (status : option string) : bool :=
  match status with
  | Some s => truthy s
  | None => false
  end.

(** The body of the loop on a matching task. *)
Definition apply_update (description : string) (status : option string)
    (now : string) (task : Task.t) : Task.t :=
  let task1 :=
    if truthy description then
      {| Task.id := Task.id task;
         Task.description := description;
         Task.status := Task.status task;
         Task.createdAt := Task.createdAt task;
         Task.updatedAt := Task.updatedAt task |}
    else task in
  let task2 :=
    if provided status then
      {| Task.id := Task.id task1;
         Task.description := Task.description task1;
         Task.status := match status with Some s => s | None => EmptyString end;
         Task.createdAt := Task.createdAt task1;
         Task.updatedAt := Task.updatedAt task1 |}
    else task1 in
  {| Task.id := Task.id task2;
     Task.description := Task.description task2;
     Task.status := Task.status task2;
     Task.createdAt := Task.createdAt task2;
     Task.updatedAt := Some now |}.

(** The loop: the first task with the identifier is updated in place; the
    flag is [task_found]. *)
Fixpoint update_first (n : Z) (description : string) (status : option string)
    (now : string) (ts : list Task.t) : list Task.t * bool :=
  match ts with
  | [] => ([], false)
  | task :: r =>
      if (Task.id task =? n)%Z then
        (apply_update description status now task :: r, true)
      else
        let (r', task_found) := update_first n description status now r in
        (task :: r', task_found)
  end.

Definition update_task (task_id : id_arg) (description : string)
    (status : option string) (now : string) : M unit :=
  match int_of_arg task_id with
  | None => raise (InvalidTaskId task_id)
  | Some n =>
      (if provided status && negb (status_in status valid_statuses)
       then raise (InvalidStatus status) else ret tt) ;;
      d <- get_data ;;
      let (ts, task_found) := update_first n description status now (tasks d) in
      set_tasks ts ;;
      if negb task_found then raise (TaskNotFound n)
      else _save_data
  end.

(** ** [TaskStorage.delete_task] *)
Definition delete_task (task_id : id_arg) : M unit :=
  match int_of_arg task_id with
  | None => raise (InvalidTaskId task_id)
  | Some n =>
      d <- get_data ;;
      let original_count := List.length (tasks d) in
      set_tasks (filter (fun task => negb (Task.id task =? n)%Z)
                        (tasks d)) ;;
      d' <- get_data ;;
      if (List.length (tasks d') =? original_count)%nat
      then raise (TaskNotFound n)
      else _save_data
  end.

(** ** [TaskStorage.list_tasks]

    The rendering of a timestamp,
    [datetime.fromisoformat(s).strftime("%Y-%m-%d %H:%M")], belongs to the
    [datetime] library and is a parameter of the model: [None] is the
    [ValueError] of a malformed timestamp. *)

Section Rendering.

Variable strftime_minutes : string -> option string.

Definition header : string :=
  String "010" (ljust 5 "ID" ++ " " ++ ljust 30 "Description" ++ " "
                ++ ljust 12 "Status" ++ " " ++ ljust 20 "Created")%string.

Fixpoint dashes (n : nat) : string :=
  match n with
  | O => EmptyString
  | S n' => String "-" (dashes n')
  end.

Definition row (task : Task.t) (created_date : string) : string :=
  let description :=
    if (27 <? String.length (Task.description task))%nat
    then (take 27 (Task.description task) ++ "...")%string
    else Task.description task in
  (ljust 5 (str_of_int (Task.id task)) ++ " " ++ ljust 30 description ++ " "
   ++ ljust 12 (Task.status task) ++ " " ++ ljust 20 created_date)%string.

Fixpoint print_rows (ts : list Task.t) : M unit :=
  match ts with
  | [] => ret tt
  | task :: r =>
      match strftime_minutes (Task.createdAt task) with
      | None => raise (BadTimestamp (Task.createdAt task))
      | Some created_date => print (row task created_date) ;; print_rows r
      end
  end.

Definition no_tasks_found : string := "No tasks found.".

Definition no_tasks_with_status (status_filter : string) : string :=
  ("No tasks with status '" ++ status_filter ++ "' found.")%string.

(** The header, the rule, one row for each task and a closing empty line. *)
Definition print_table (ts : list Task.t) : M unit :=
  print header ;;
  print (dashes 70) ;;
  print_rows ts ;;
  print EmptyString.

Definition list_tasks (status_filter : string) : M unit :=
  d <- get_data ;;
  match tasks d with
  | [] => print no_tasks_found
  | _ :: _ =>
      if truthy status_filter then
        match filter (fun task => String.eqb (Task.status task) status_filter)
                     (tasks d) with
        | [] => print (no_tasks_with_status status_filter)
        | selected => print_table selected
        end
      else print_table (tasks d)
  end.

(** ** Sequences of operations

    The four operations of the store as the specification names them, and
    the run of a sequence of them on one store.  An operation that raises
    does not stop the run: the next one starts from the world it left. *)

Inductive operation : Type :=
| Create (description now : string)
| Update (task_id : id_arg) (description : string) (status : option string)
         (now : string)
| Delete (task_id : id_arg)
| List (status_filter : string).

(** The value of an operation: the new identifier for [Create]. *)
Definition perform (o : operation) : M (option Z) :=
  match o with
  | Create description now =>
      new_id <- new_task description now ;; ret (Some new_id)
  | Update task_id description status now =>
      update_task task_id description status now ;; ret None
  | Delete task_id => delete_task task_id ;; ret None
  | List status_filter => list_tasks status_filter ;; ret None
  end.

Fixpoint run (ops : list operation) (w : World)
  : World * list (outcome (option Z)) :=
  match ops with
  | [] => (w, [])
  | o :: r =>
      let (w1, res) := perform o w in
      let (w2, rest) := run r w1 in
      (w2, res :: rest)
  end.

End Rendering.

(** The identifiers the successful [Create]s of a run returned, in order. *)
Fixpoint created_ids (results : list (outcome (option Z))) : list Z :=
  match results with
  | [] => []
  | Returned (Some n) :: r => n :: created_ids r
  | _ :: r => created_ids r
  end.

(** The world of a store that has just been created on an absent file. *)
Definition empty_data : Data := {| tasks := []; count := 0 |}.

Definition fresh_world : World :=
  {| data := empty_data;
     disk := dump default_data {| content := None; writes := 0 |};
     stdout := [] |}.

(** The store after [add "Buy milk"] on a new store. *)
Definition one_task_world : World :=
  fst (new_task "Buy milk" "2026-01-02T03:04:05" fresh_world).

(** A rendering of the timestamps [datetime.now().isoformat()] produces,
    [YYYY-MM-DDTHH:MM:SS.ffffff]: the date, a blank, hours and minutes. *)
Definition isoformat_minutes (s : string) : option string :=
  if (19 <=? String.length s)%nat
  then Some (take 10 s ++ " " ++ substring 11 5 s)%string
  else None.

(** ** Predicates of the specification *)

(** A description made of white space only (the empty one included). *)
Fixpoint all_space (s : string) : bool :=
  match s with
  | EmptyString => true
  | String c r => isspace c && all_space r
  end.

(** Every task identifier is at most the counter. *)
Definition ids_bounded (d : Data) : Prop :=
  Forall (fun task => (Task.id task <= count d)%Z) (tasks d).

(** No two tasks share an identifier. *)
Definition ids_unique (d : Data) : Prop :=
  NoDup (map Task.id (tasks d)).

Definition store_invariant (d : Data) : Prop :=
  ids_bounded d /\ ids_unique d.

(** [consecutive a n] is [a; a+1; ...], [n] numbers. *)
Fixpoint consecutive (a : Z) (n : nat) : list Z :=
  match n with
  | O => []
  | S n' => a :: consecutive (a + 1) n'
  end.

(** A [Create] whose description is not blank. *)
Definition valid_create (o : operation) : bool :=
  match o with
  | Create description _ => negb (all_space description)
  | _ => false
  end.

(** The tasks that [delete_task] keeps. *)
Definition without (n : Z) (ts : list Task.t) : list Task.t :=
  filter (fun task => negb (Task.id task =? n)%Z) ts.

(** A status argument that passes the check of [update_task]: absent, empty,
    or one of the valid statuses. *)
Definition status_accepted (status : option string) : bool :=
  negb (provided status && negb (status_in status valid_statuses)).

(** ** Documents the encoder writes *)

(** A string free of surrogates. *)
Definition plain (s : text) : Prop := Forall (fun c => (c < 55296)%N) s.

(** What may follow a value inside a document the encoder wrote: nothing, a
    comma or a line break. *)
Definition delimited (rest : text) : Prop :=
  match rest with
  | [] => True
  | c :: _ => c = 44%N \/ c = 10%N
  end.

(** A document the round trip covers: no float, no surrogate in a string or
    a key, no key twice in a dictionary. *)
Fixpoint regular (v : json) : Prop :=
  match v with
  | JNull | JBool _ | JInt _ => True
  | JFloat _ => False
  | JStr s => plain s
  | JArr xs =>
      (fix all (l : list json) : Prop :=
         match l with
         | [] => True
         | x :: r => regular x /\ all r
         end) xs
  | JObj kvs =>
      NoDup (map fst kvs)
      /\ (fix all (l : list (text * json)) : Prop :=
            match l with
            | [] => True
            | kv :: r => plain (fst kv) /\ regular (snd kv) /\ all r
            end) kvs
  end.

(** A text whose first character opens a value: no blank and no closing
    bracket. *)
Definition starts_value (t : text) : Prop :=
  match t with
  | c :: _ => is_ws c = false /\ c <> 93%N
  | [] => False
  end.

(** The hypothesis of the induction on a value, for one item. *)
Definition reads_back (level : nat) (x : json) : Prop :=
  forall rest fuel,
    delimited rest ->
    (2 * List.length (encode level x ++ rest) + 1 <= fuel)%nat ->
    scan_once fuel (encode level x ++ rest) = Parsed x rest.

(** One member of a dictionary as the encoder writes it. *)
Definition member_text (level : nat) (kv : text * json) : text :=
  encode_basestring_ascii (fst kv) ++ code ": " ++ encode level (snd kv).

(** ** [TaskTrackerCli]: the command dispatcher

    [sys.argv] is a list of strings whose head is the name of the program.
    The methods of the dispatcher raise [ValueError]s of their own for
    missing operands; [execute] catches every [ValueError] and prints its
    text.  The text of [datetime.fromisoformat]'s error belongs to the
    library and is a parameter, as the rendering is. *)

(** [print(line)], as a change of the world. *)
Definition say (line : string) (w : World) : World := fst (print line w).

(** The double quote, as a string. *)
Definition dquote : string := String (ascii_of_N 34) EmptyString.

Module TaskTrackerCli.

Section Dispatcher.

Variable strftime_minutes : string -> option string.
Variable isoformat_error : string -> string.

(** [str(task_id)] *)
Definition str_of_arg (a : id_arg) : string :=
  match a with
  | IdStr s => s
  | IdInt n => str_of_int n
  end.

(** [str(e)] for the errors of the store. *)
Definition message (e : error) : string :=
  match e with
  | EmptyDescription => "Task description cannot be empty"
  | InvalidTaskId a =>
      ("Invalid task ID: " ++ str_of_arg a ++ ". Must be a number.")%string
  | InvalidStatus status =>
      ("Invalid status: "
       ++ match status with Some s => s | None => "None" end
       ++ ". Must be one of ['todo', 'in-progress', 'done']")%string
  | TaskNotFound n =>
      ("Task with ID " ++ str_of_int n ++ " not found")%string
  | BadTimestamp s => isoformat_error s
  end.

(** A [ValueError] seen by [execute]: one of the store, or one of the
    dispatcher, which carries its text. *)
Inductive cli_error : Type :=
| StoreError (e : error)
| MissingOperand (text : string).

Definition cli_message (e : cli_error) : string :=
  match e with
  | StoreError e' => message e'
  | MissingOperand text => text
  end.

Inductive cli_outcome : Type :=
| Done
| Failed (e : cli_error).

(** A call of a method of the store from a method of the dispatcher. *)
Definition call {A : Type} (c : M A) (k : A -> World -> World)
    (w : World) : World * cli_outcome :=
  match c w with
  | (w', Returned a) => (k a w', Done)
  | (w', Raised e) => (w', Failed (StoreError e))
  end.

Definition add_task (options : list string) (now : string) (w : World)
  : World * cli_outcome :=
  match options with
  | [] =>
      (w, Failed (MissingOperand "Missing task description for 'add' command"))
  | description :: _ =>
      call (new_task description now)
           (fun task_id =>
              say ("Task added successfully (ID: " ++ str_of_int task_id
                   ++ ")")%string) w
  end.

Definition mark_task (status : string) (options : list string) (now : string)
    (w : World) : World * cli_outcome :=
  match options with
  | [] =>
      (w, Failed (MissingOperand
                    ("Missing task ID for '" ++ status ++ "' command")%string))
  | task_id :: _ =>
      call (update_task (IdStr task_id) EmptyString (Some status) now)
           (fun _ =>
              say ("Task " ++ task_id ++ " marked as '" ++ status
                   ++ "' successfully")%string) w
  end.

Definition update_task (options : list string) (now : string) (w : World)
  : World * cli_outcome :=
  match options with
  | task_id :: description :: _ =>
      call (update_task (IdStr task_id) description None now)
           (fun _ => say ("Task " ++ task_id ++ " updated successfully")%string)
           w
  | _ =>
      (w, Failed (MissingOperand
                    "Missing task ID or description for 'update' command"))
  end.

Definition delete_task (options : list string) (w : World)
  : World * cli_outcome :=
  match options with
  | [] => (w, Failed (MissingOperand "Missing task ID for 'delete' command"))
  | task_id :: _ =>
      call (delete_task (IdStr task_id))
           (fun _ => say ("Task " ++ task_id ++ " deleted successfully")%string)
           w
  end.

Definition usage : list string :=
  ["Task Tracker CLI Usage:";
   ("  task-cli add " ++ dquote ++ "Task description" ++ dquote)%string;
   ("  task-cli update <task_id> " ++ dquote ++ "Updated description"
    ++ dquote)%string;
   "  task-cli delete <task_id>";
   "  task-cli mark-in-progress <task_id>";
   "  task-cli mark-done <task_id>";
   "  task-cli list [done|todo|in-progress]"].

Definition _print_usage (w : World) : World :=
  fold_left (fun w' line => say line w') usage w.

(** The [match] on the action. *)
Definition dispatch (action : string) (options : list string) (now : string)
    (w : World) : World * cli_outcome :=
  if String.eqb action "add" then add_task options now w
  else if String.eqb action "update" then update_task options now w
  else if String.eqb action "delete" then delete_task options w
  else if String.eqb action "mark-in-progress"
  then mark_task "in-progress" options now w
  else if String.eqb action "mark-done" then mark_task "done" options now w
  else if String.eqb action "list" then
    let status_filter :=
      match options with
      | f :: _ => f
      | [] => EmptyString
      end in
    call (list_tasks strftime_minutes status_filter) (fun _ w' => w') w
  else
    (_print_usage (say ("Unknown action: " ++ action)%string w), Done).

(** [TaskTrackerCli.execute] *)
Definition execute (argv : list string) (now : string) (w : World) : World :=
  match argv with
  | [] | [_] => _print_usage w
  | _ :: action :: options =>
      match dispatch action options now w with
      | (w', Done) => w'
      | (w', Failed e) => say ("Error: " ++ cli_message e)%string w'
      end
  end.

End Dispatcher.

End TaskTrackerCli.

(** ** [main]: one run of the program

    The constructor runs outside every handler: its [TypeError] ends the
    process with a traceback.  [execute] runs inside a handler for
    [Exception], which a well-shaped store never reaches ([execute] has
    caught the [ValueError]s), and with it the [--debug] flag.  [Unmodelled]
    marks a loaded document that is not of the shape [to_json] writes: what
    the operations do on it is outside this model. *)

Inductive exit : Type :=
| Exited (w : World)
| Traceback
| Unmodelled.

Section Program.

Variable strftime_minutes : string -> option string.
Variable isoformat_error : string -> string.

Definition main (argv : list string) (now : string) (dk : Disk) : exit :=
  match init dk with
  | Crashed => Traceback
  | Started loaded dk' =>
      match of_json loaded with
      | Some d =>
          Exited (TaskTrackerCli.execute strftime_minutes isoformat_error
                    argv now {| data := d; disk := dk'; stdout := [] |})
      | None => Unmodelled
      end
  end.

(** Runs of the program one after the other on the same file, each with
    its arguments and its clock: the file they leave, when each of them
    exits normally. *)
Fixpoint sessions (invocations : list (list string * string)) (dk : Disk)
  : option Disk :=
  match invocations with
  | [] => Some dk
  | (argv, now) :: r =>
      match main argv now dk with
      | Exited w => sessions r (disk w)
      | Traceback | Unmodelled => None
      end
  end.

(** The same commands given to one dispatcher, without a restart between
    them. *)
Definition commands (invocations : list (list string * string)) (w : World)
  : World :=
  fold_left
    (fun w' inv =>
       TaskTrackerCli.execute strftime_minutes isoformat_error
         (fst inv) (snd inv) w')
    invocations w.

End Program.

(** ** Further predicates *)

(** The file holds the state the store has in memory. *)
Definition synced (w : World) : Prop :=
  content (disk w) = Some (json_dumps (to_json (data w))).

(** The identifier an operation is aimed at. *)
Definition target (o : operation) : option Z :=
  match o with
  | Update task_id _ _ _ | Delete task_id => int_of_arg task_id
  | Create _ _ | List _ => None
  end.

(** An operation that changes the tasks when it returns. *)
Definition mutates (o : operation) : bool :=
  match o with
  | List _ => false
  | Create _ _ | Update _ _ _ _ | Delete _ => true
  end.

(** The store operation a command line stands for, if any: the action and
    its first operands decide; further operands play no part. *)
Definition operation_of (argv : list string) (now : string)
  : list operation :=
  match argv with
  | _ :: action :: options =>
      if String.eqb action "add" then
        match options with
        | description :: _ => [Create description now]
        | [] => []
        end
      else if String.eqb action "update" then
        match options with
        | task_id :: description :: _ =>
            [Update (IdStr task_id) description None now]
        | _ => []
        end
      else if String.eqb action "delete" then
        match options with
        | task_id :: _ => [Delete (IdStr task_id)]
        | [] => []
        end
      else if String.eqb action "mark-in-progress" then
        match options with
        | task_id :: _ =>
            [Update (IdStr task_id) EmptyString (Some "in-progress") now]
        | [] => []
        end
      else if String.eqb action "mark-done" then
        match options with
        | task_id :: _ =>
            [Update (IdStr task_id) EmptyString (Some "done") now]
        | [] => []
        end
      else if String.eqb action "list" then
        match options with
        | status_filter :: _ => [List status_filter]
        | [] => [List EmptyString]
        end
      else []
  | _ => []
  end.

(** The text a timestamp is shown as: empty when it does not render. *)
Definition rendered (fmt : string -> option string) (task : Task.t)
  : string :=
  match fmt (Task.createdAt task) with
  | Some created_date => created_date
  | None => EmptyString
  end.

(** The tasks [list_tasks] shows for a filter. *)
Definition selected (status_filter : string) (ts : list Task.t)
  : list Task.t :=
  if truthy status_filter
  then filter (fun task => String.eqb (Task.status task) status_filter) ts
  else ts.

(** Two worlds with the same memory and the same file. *)
Definition same_store (w1 w2 : World) : Prop :=
  data w1 = data w2 /\ disk w1 = disk w2.

(** The actions that change the store. *)
Definition mutation_action (action : string) : bool :=
  existsb (String.eqb action)
          ["add"; "update"; "delete"; "mark-in-progress"; "mark-done"].

(** What [execute] makes of the outcome of a method of the dispatcher. *)
Definition settle (err : string -> string)
    (res : World * TaskTrackerCli.cli_outcome) : World :=
  match res with
  | (w', TaskTrackerCli.Done) => w'
  | (w', TaskTrackerCli.Failed e) =>
      say ("Error: " ++ TaskTrackerCli.cli_message err e)%string w'
  end.

(** [line.startswith(p)] *)
Fixpoint begins (p line : string) : bool :=
  match p, line with
  | EmptyString, _ => true
  | String a p', String b line' => Ascii.eqb a b && begins p' line'
  | String _ _, EmptyString => false
  end.

(** From [w] to [w'] one line was printed: an error line, and the store is
    as it was, or a line of success, and the file was written once with
    the new state. *)
Definition reports_once (w w' : World) : Prop :=
  exists line,
    stdout w' = stdout w ++ [line]
    /\ ((begins "Error: " line = true
         /\ data w' = data w /\ disk w' = disk w)
        \/ (begins "Task " line = true
            /\ disk w' = dump (to_json (data w')) (disk w))).

(** * Properties *)

(** ** White space *)

Lemma lstrip_all_space (s : string) :
  all_space s = true -> lstrip s = EmptyString.
Proof.
  induction s as [|c r IH]; simpl; [reflexivity|].
  intros H. apply andb_prop in H as [Hc Hr]. rewrite Hc. auto.
Qed.

Lemma lstrip_not_all_space (s : string) :
  all_space s = false ->
  exists c r, lstrip s = String c r /\ isspace c = false.
Proof.
  induction s as [|c r IH]; simpl; [discriminate|].
  destruct (isspace c) eqn:Hc; simpl.
  - exact IH.
  - intros _. exists c, r. rewrite Hc. auto.
Qed.

Lemma rstrip_keeps_head (c : ascii) (r : string) :
  isspace c = false -> truthy (rstrip (String c r)) = true.
Proof.
  intros Hc. simpl. destruct (rstrip r); [rewrite Hc|]; reflexivity.
Qed.

Lemma strip_blank (s : string) :
  all_space s = true -> strip s = EmptyString.
Proof.
  intros H. unfold strip. rewrite (lstrip_all_space s H). reflexivity.
Qed.

Lemma strip_not_blank (s : string) :
  all_space s = false -> truthy (strip s) = true.
Proof.
  intros H. unfold strip.
  destruct (lstrip_not_all_space s H) as (c & r & -> & Hc).
  now apply rstrip_keeps_head.
Qed.

(** [description.strip()] is empty exactly on white space. *)
Lemma strip_truthy_iff (s : string) :
  truthy (strip s) = negb (all_space s).
Proof.
  destruct (all_space s) eqn:H; simpl.
  - now rewrite strip_blank.
  - now apply strip_not_blank.
Qed.

(** ** Worlds *)

Lemma world_eta (w : World) :
  {| data := {| tasks := tasks (data w); count := count (data w) |};
     disk := disk w; stdout := stdout w |} = w.
Proof. destruct w as [[ts c] dk out]; reflexivity. Qed.

Ltac unfold_store :=
  unfold new_task, update_task, delete_task, list_tasks, perform,
    bind, ret, raise, get_data, set_tasks, set_count, _save_data, print.

(** ** Creation *)

Lemma new_task_blank (description now : string) (w : World) :
  all_space description = true ->
  new_task description now w = (w, Raised EmptyDescription).
Proof.
  intros H. unfold new_task. rewrite strip_truthy_iff, H. reflexivity.
Qed.

Lemma new_task_valid (description now : string) (w : World) :
  all_space description = false ->
  new_task description now w =
  (let d := {| tasks := tasks (data w) ++
                 [{| Task.id := count (data w) + 1;
                     Task.description := description;
                     Task.status := "todo";
                     Task.createdAt := now;
                     Task.updatedAt := None |}];
               count := count (data w) + 1 |} in
   {| data := d; disk := dump (to_json d) (disk w); stdout := stdout w |},
   Returned (count (data w) + 1)%Z).
Proof.
  intros H. unfold new_task. rewrite strip_truthy_iff, H. reflexivity.
Qed.

(** C7. A description that is empty or made of white space only is refused
    by [new_task] with the [InvalidArgument] error of an empty description;
    the world is left as it was: same tasks, same counter, same file content
    and no further write of the file. *)
Theorem create_blank_is_rejected (description now : string) (w : World) :
  all_space description = true ->
  exists e w',
    new_task description now w = (w', Raised e)
    /\ kind_of e = Some InvalidArgument
    /\ data w' = data w
    /\ content (disk w') = content (disk w)
    /\ writes (disk w') = writes (disk w).
Proof.
  intros H. exists EmptyDescription, w.
  rewrite (new_task_blank _ _ _ H). repeat split.
Qed.

Lemma create_blank_is_rejected_witness :
  all_space "   " = true
  /\ exists e w',
       new_task "   " "2026-01-02T03:04:05" fresh_world = (w', Raised e)
       /\ kind_of e = Some InvalidArgument
       /\ data w' = data fresh_world
       /\ content (disk w') = content (disk fresh_world)
       /\ writes (disk w') = writes (disk fresh_world).
Proof.
  split; [reflexivity|].
  apply (create_blank_is_rejected "   " "2026-01-02T03:04:05" fresh_world).
  reflexivity.
Defined.

(** ** The update loop *)

Lemma apply_update_id (description : string) (status : option string)
    (now : string) (task : Task.t) :
  Task.id (apply_update description status now task) = Task.id task.
Proof.
  unfold apply_update.
  destruct (truthy description), (provided status); reflexivity.
Qed.

Lemma update_first_ids (n : Z) (description : string)
    (status : option string) (now : string) (ts : list Task.t) :
  map Task.id (fst (update_first n description status now ts))
  = map Task.id ts.
Proof.
  induction ts as [|task r IH]; cbn [update_first]; [reflexivity|].
  destruct (Task.id task =? n)%Z.
  - cbn [fst map]. now rewrite apply_update_id.
  - destruct (update_first n description status now r) as [r' found].
    cbn [fst map] in *. now rewrite IH.
Qed.

Lemma update_first_absent (n : Z) (description : string)
    (status : option string) (now : string) (ts : list Task.t) :
  ~ In n (map Task.id ts) ->
  update_first n description status now ts = (ts, false).
Proof.
  induction ts as [|task r IH]; simpl; intros H; [reflexivity|].
  destruct (Z.eqb_spec (Task.id task) n) as [E|E].
  - exfalso. apply H. now left.
  - rewrite IH; [reflexivity|]. intros HIn. apply H. now right.
Qed.

Lemma update_first_present (n : Z) (description : string)
    (status : option string) (now : string) (ts : list Task.t) :
  In n (map Task.id ts) ->
  exists before task after,
    ts = before ++ task :: after
    /\ ~ In n (map Task.id before)
    /\ Task.id task = n
    /\ update_first n description status now ts
       = (before ++ apply_update description status now task :: after, true).
Proof.
  induction ts as [|task r IH]; simpl; intros H; [contradiction|].
  destruct (Z.eqb_spec (Task.id task) n) as [E|E].
  - exists [], task, r. simpl. auto.
  - destruct H as [H|H]; [contradiction|].
    destruct (IH H) as (before & t & after & -> & Hb & Ht & Hu).
    exists (task :: before), t, after. rewrite Hu. simpl.
    repeat split; auto. intros [?|?]; auto.
Qed.

(** [update_task], one case for each way out of the method. *)
Lemma update_task_cases (task_id : id_arg) (description : string)
    (status : option string) (now : string) (w : World) :
  update_task task_id description status now w =
  match int_of_arg task_id with
  | None => (w, Raised (InvalidTaskId task_id))
  | Some n =>
      if status_accepted status then
        let (ts, task_found) :=
          update_first n description status now (tasks (data w)) in
        let d := {| tasks := ts; count := count (data w) |} in
        if task_found then
          ({| data := d; disk := dump (to_json d) (disk w);
              stdout := stdout w |}, Returned tt)
        else
          ({| data := d; disk := disk w; stdout := stdout w |},
           Raised (TaskNotFound n))
      else (w, Raised (InvalidStatus status))
  end.
Proof.
  unfold update_task, status_accepted.
  destruct (int_of_arg task_id) as [n|]; [|reflexivity].
  unfold_store.
  destruct (provided status && negb (status_in status valid_statuses));
    simpl; [reflexivity|].
  destruct (update_first n description status now (tasks (data w)))
    as [ts [|]]; reflexivity.
Qed.

(** ** Deletion *)

Lemma filter_length_le {A : Type} (f : A -> bool) (l : list A) :
  (List.length (filter f l) <= List.length l)%nat.
Proof.
  induction l as [|x r IH]; simpl; [lia|]. destruct (f x); simpl; lia.
Qed.

Lemma filter_same_length {A : Type} (f : A -> bool) (l : list A) :
  List.length (filter f l) = List.length l -> filter f l = l.
Proof.
  induction l as [|x r IH]; simpl; [reflexivity|].
  pose proof (filter_length_le f r) as Hle.
  destruct (f x); simpl; intros H.
  - f_equal. apply IH. lia.
  - lia.
Qed.

Lemma without_absent (n : Z) (ts : list Task.t) :
  ~ In n (map Task.id ts) -> without n ts = ts.
Proof.
  induction ts as [|task r IH]; simpl; intros H; [reflexivity|].
  destruct (Z.eqb_spec (Task.id task) n) as [E|E]; simpl.
  - exfalso. apply H. now left.
  - f_equal. apply IH. intros HIn. apply H. now right.
Qed.

Lemma without_removes (n : Z) (ts : list Task.t) :
  ~ In n (map Task.id (without n ts)).
Proof.
  unfold without. intros H. apply in_map_iff in H as (task & E & HIn).
  apply filter_In in HIn as [_ Hf].
  apply negb_true_iff, Z.eqb_neq in Hf. contradiction.
Qed.

Lemma without_subset (n m : Z) (ts : list Task.t) :
  In m (map Task.id (without n ts)) -> In m (map Task.id ts).
Proof.
  unfold without. intros H. apply in_map_iff in H as (task & E & HIn).
  apply filter_In in HIn as [HIn _]. apply in_map_iff. eauto.
Qed.

Lemma without_present (n : Z) (ts : list Task.t) :
  In n (map Task.id ts) ->
  (List.length (without n ts) =? List.length ts)%nat = false.
Proof.
  intros H. apply Nat.eqb_neq. intros E.
  apply filter_same_length in E. fold (without n ts) in E.
  apply (without_removes n ts). now rewrite E.
Qed.

(** [delete_task], one case for each way out of the method. *)
Lemma delete_task_cases (task_id : id_arg) (w : World) :
  delete_task task_id w =
  match int_of_arg task_id with
  | None => (w, Raised (InvalidTaskId task_id))
  | Some n =>
      let d := {| tasks := without n (tasks (data w));
                  count := count (data w) |} in
      if (List.length (without n (tasks (data w)))
          =? List.length (tasks (data w)))%nat
      then ({| data := d; disk := disk w; stdout := stdout w |},
            Raised (TaskNotFound n))
      else ({| data := d; disk := dump (to_json d) (disk w);
               stdout := stdout w |}, Returned tt)
  end.
Proof.
  unfold delete_task. destruct (int_of_arg task_id) as [n|]; [|reflexivity].
  unfold_store. simpl. fold (without n (tasks (data w))).
  destruct (List.length (without n (tasks (data w)))
            =? List.length (tasks (data w)))%nat; reflexivity.
Qed.

(** ** Listing *)

Lemma print_rows_frame (fmt : string -> option string) (ts : list Task.t)
    (w : World) :
  data (fst (print_rows fmt ts w)) = data w
  /\ disk (fst (print_rows fmt ts w)) = disk w.
Proof.
  revert w. induction ts as [|task r IH]; intros w; cbn [print_rows].
  - split; reflexivity.
  - destruct (fmt (Task.createdAt task)) as [created|]; [|split; reflexivity].
    unfold bind, print. cbn [fst snd].
    match goal with |- context [print_rows fmt r ?w1] =>
      destruct (IH w1) as [Hd Hk] end.
    split; [rewrite Hd | rewrite Hk]; reflexivity.
Qed.

Lemma print_table_frame (fmt : string -> option string) (ts : list Task.t)
    (w : World) :
  data (fst (print_table fmt ts w)) = data w
  /\ disk (fst (print_table fmt ts w)) = disk w.
Proof.
  unfold print_table, bind, print. cbn [fst snd].
  match goal with |- context [print_rows fmt ts ?w1] =>
    destruct (print_rows_frame fmt ts w1) as [Hd Hk];
    destruct (print_rows fmt ts w1) as [w' [u|e]] end;
    cbn in *; split; congruence.
Qed.

Lemma list_tasks_frame (fmt : string -> option string)
    (status_filter : string) (w : World) :
  data (fst (list_tasks fmt status_filter w)) = data w
  /\ disk (fst (list_tasks fmt status_filter w)) = disk w.
Proof.
  unfold list_tasks, bind, get_data.
  destruct (tasks (data w)) as [|t0 r0]; [split; reflexivity|].
  destruct (truthy status_filter); [|apply print_table_frame].
  destruct (filter _ _); [split; reflexivity|apply print_table_frame].
Qed.

(** ** What an operation does to the data *)

Lemma perform_data (fmt : string -> option string) (o : operation)
    (w : World) :
  let d := data w in
  let d' := data (fst (perform fmt o w)) in
  d' = d
  \/ (exists description now,
        d' = {| tasks := tasks d ++
                  [{| Task.id := count d + 1;
                      Task.description := description;
                      Task.status := "todo";
                      Task.createdAt := now;
                      Task.updatedAt := None |}];
                count := count d + 1 |})
  \/ (exists n description status now,
        d' = {| tasks := fst (update_first n description status now (tasks d));
                count := count d |})
  \/ (exists n, d' = {| tasks := without n (tasks d); count := count d |}).
Proof.
  destruct o as [description now|task_id description status now|task_id|f];
    cbn [perform]; unfold bind.
  - destruct (all_space description) eqn:H.
    + rewrite (new_task_blank _ _ _ H). now left.
    + rewrite (new_task_valid _ _ _ H). right; left. now eexists _, _.
  - rewrite update_task_cases.
    destruct (int_of_arg task_id) as [n|]; [|now left].
    destruct (status_accepted status); [|now left].
    right; right; left. exists n, description, status, now.
    destruct (update_first n description status now (tasks (data w)))
      as [ts [|]]; reflexivity.
  - rewrite delete_task_cases.
    destruct (int_of_arg task_id) as [n|]; [|now left].
    right; right; right. exists n. cbv zeta.
    destruct (_ =? _)%nat; reflexivity.
  - left. destruct (list_tasks_frame fmt f w) as [Hd _].
    destruct (list_tasks fmt f w) as [w' [u|e]]; exact Hd.
Qed.

(** The value of an operation: only a [Create] with a description that is
    not blank returns an identifier, the counter plus one, and only it moves
    the counter. *)
Lemma perform_result (fmt : string -> option string) (o : operation)
    (w : World) :
  if valid_create o then
    snd (perform fmt o w) = Returned (Some (count (data w) + 1)%Z)
    /\ count (data (fst (perform fmt o w))) = (count (data w) + 1)%Z
  else
    created_ids [snd (perform fmt o w)] = []
    /\ count (data (fst (perform fmt o w))) = count (data w).
Proof.
  destruct o as [description now|task_id description status now|task_id|f];
    cbn [perform valid_create]; unfold bind.
  - destruct (all_space description) eqn:H; cbn [negb].
    + rewrite (new_task_blank _ _ _ H). split; reflexivity.
    + rewrite (new_task_valid _ _ _ H). split; reflexivity.
  - rewrite update_task_cases.
    destruct (int_of_arg task_id) as [n|]; [|split; reflexivity].
    destruct (status_accepted status); [|split; reflexivity].
    destruct (update_first n description status now (tasks (data w)))
      as [ts [|]]; split; reflexivity.
  - rewrite delete_task_cases.
    destruct (int_of_arg task_id) as [n|]; [|split; reflexivity].
    cbv zeta. destruct (_ =? _)%nat; split; reflexivity.
  - destruct (list_tasks_frame fmt f w) as [Hd _].
    destruct (list_tasks fmt f w) as [w' [u|e]]; cbn in *;
      (split; [reflexivity | now rewrite Hd]).
Qed.

(** ** Identifiers handed out by a run *)

Lemma consecutive_lower (a : Z) (n : nat) :
  Forall (fun x => (a <= x)%Z) (consecutive a n).
Proof.
  revert a. induction n as [|n IH]; intros a; cbn [consecutive].
  - constructor.
  - constructor; [lia|].
    eapply Forall_impl; [|apply (IH (a + 1)%Z)]. cbv beta. intros; lia.
Qed.

Lemma consecutive_increasing (a : Z) (n : nat) :
  StronglySorted Z.lt (consecutive a n).
Proof.
  revert a. induction n as [|n IH]; intros a; cbn [consecutive].
  - constructor.
  - constructor; [apply IH|].
    eapply Forall_impl; [|apply (consecutive_lower (a + 1)%Z)].
    cbv beta. intros; lia.
Qed.

Lemma run_created_ids (fmt : string -> option string)
    (ops : list operation) (w : World) :
  created_ids (snd (run fmt ops w))
  = consecutive (count (data w) + 1)
                (List.length (filter valid_create ops)).
Proof.
  revert w. induction ops as [|o r IH]; intros w; cbn [run]; [reflexivity|].
  pose proof (perform_result fmt o w) as Ho.
  destruct (perform fmt o w) as [w1 res] eqn:Ep.
  specialize (IH w1). destruct (run fmt r w1) as [w2 rest].
  cbn [fst snd filter] in *.
  destruct (valid_create o).
  - destruct Ho as [-> Hc]. cbn [created_ids List.length consecutive].
    now rewrite IH, Hc.
  - destruct Ho as [Hn Hc]. rewrite <- Hc, <- IH.
    destruct res as [[n|]|e]; cbn [created_ids] in *;
      [discriminate|reflexivity|reflexivity].
Qed.

(** C2. A description that is not blank is accepted: [new_task] returns the
    counter of the state it started from plus one, appends a task with that
    identifier, the given description, status [todo], [createdAt] set to the
    current time and [updatedAt] absent, and the counter becomes the new
    identifier.  In every run of operations the identifiers the successful
    creations return are consecutive, one for each creation with a
    non-blank description, whatever is updated, deleted or listed in
    between; on a new store they are 1, 2, 3, ..., a strictly increasing
    sequence. *)
Theorem create_returns_next_id (fmt : string -> option string)
    (description now : string) (w : World) (ops : list operation) :
  all_space description = false ->
  (exists w',
     new_task description now w = (w', Returned (count (data w) + 1)%Z)
     /\ tasks (data w') =
        tasks (data w) ++
        [{| Task.id := count (data w) + 1;
            Task.description := description;
            Task.status := "todo";
            Task.createdAt := now;
            Task.updatedAt := None |}]
     /\ count (data w') = (count (data w) + 1)%Z)
  /\ created_ids (snd (run fmt ops w))
     = consecutive (count (data w) + 1)
                   (List.length (filter valid_create ops))
  /\ created_ids (snd (run fmt ops fresh_world))
     = consecutive 1 (List.length (filter valid_create ops))
  /\ StronglySorted Z.lt (created_ids (snd (run fmt ops w))).
Proof.
  intros H. split; [|split; [|split]].
  - rewrite (new_task_valid _ _ _ H). eexists. split; [reflexivity|].
    split; reflexivity.
  - apply run_created_ids.
  - apply (run_created_ids fmt ops fresh_world).
  - rewrite run_created_ids. apply consecutive_increasing.
Qed.

Lemma create_returns_next_id_witness :
  all_space "Buy milk" = false
  /\ created_ids
       (snd (run isoformat_minutes
                 [Create "Buy milk" "2026-01-02T03:04:05";
                  Delete (IdStr "1");
                  Create " " "2026-01-02T03:04:06";
                  Create "Write report" "2026-01-02T03:04:07"]
                 fresh_world))
     = [1; 2]%Z.
Proof.
  split; [reflexivity|].
  exact (proj1 (proj2 (proj2
    (create_returns_next_id isoformat_minutes "Buy milk"
       "2026-01-02T03:04:05" fresh_world
       [Create "Buy milk" "2026-01-02T03:04:05";
        Delete (IdStr "1");
        Create " " "2026-01-02T03:04:06";
        Create "Write report" "2026-01-02T03:04:07"]
       eq_refl)))).
Defined.

(** ** The invariant of the store *)

Lemma ids_bounded_weaken (ts : list Task.t) (c c' : Z) :
  (c <= c')%Z ->
  Forall (fun task => (Task.id task <= c)%Z) ts ->
  Forall (fun task => (Task.id task <= c')%Z) ts.
Proof.
  intros Hc H. eapply Forall_impl; [|exact H]. cbv beta. intros; lia.
Qed.

Lemma bounded_by_ids (ts ts' : list Task.t) (c : Z) :
  (forall m, In m (map Task.id ts') -> In m (map Task.id ts)) ->
  Forall (fun task => (Task.id task <= c)%Z) ts ->
  Forall (fun task => (Task.id task <= c)%Z) ts'.
Proof.
  intros Hsub H. apply Forall_forall. intros task HIn.
  assert (Hm : In (Task.id task) (map Task.id ts)).
  { apply Hsub, in_map, HIn. }
  apply in_map_iff in Hm as (task0 & E & HIn0).
  rewrite Forall_forall in H. rewrite <- E. now apply H.
Qed.

Lemma without_ids (n : Z) (ts : list Task.t) :
  map Task.id (without n ts)
  = filter (fun m => negb (m =? n)%Z) (map Task.id ts).
Proof.
  induction ts as [|task r IH]; simpl; [reflexivity|].
  destruct (Task.id task =? n)%Z; simpl; now rewrite IH.
Qed.

(** C3. In a store state where every task identifier is at most the counter
    and no two tasks share an identifier, each of the four operations
    (create, update, delete, list), whether it returns or raises, leaves a
    state with the same two properties, and a counter that is not smaller. *)
Theorem operations_preserve_invariant (fmt : string -> option string)
    (o : operation) (w : World) :
  store_invariant (data w) ->
  store_invariant (data (fst (perform fmt o w)))
  /\ (count (data w) <= count (data (fst (perform fmt o w))))%Z.
Proof.
  intros [Hb Hu]. unfold store_invariant, ids_bounded, ids_unique in *.
  destruct (perform_data fmt o w)
    as [E|[(description & now & E)|[(n & description & status & now & E)
                                   |(n & E)]]];
    cbv zeta in E; rewrite E; cbn [tasks count].
  - repeat split; auto. lia.
  - repeat split; try lia.
    + apply Forall_app. split.
      * apply (ids_bounded_weaken _ (count (data w))); [lia|exact Hb].
      * constructor; [cbn; lia|constructor].
    + rewrite map_app. cbn [map Task.id].
      apply NoDup_app.
      * exact Hu.
      * constructor; [intros []|constructor].
      * intros m Hm [<-|[]]. apply in_map_iff in Hm as (task & Et & HIn).
        rewrite Forall_forall in Hb. specialize (Hb task HIn). lia.
  - repeat split; try lia.
    + apply (bounded_by_ids (tasks (data w))); [|exact Hb].
      intros m. now rewrite update_first_ids.
    + now rewrite update_first_ids.
  - repeat split; try lia.
    + apply (bounded_by_ids (tasks (data w))); [|exact Hb].
      intros m. apply without_subset.
    + rewrite without_ids. now apply NoDup_filter.
Qed.

Lemma operations_preserve_invariant_witness :
  store_invariant (data fresh_world)
  /\ store_invariant
       (data (fst (perform isoformat_minutes
                     (Create "Buy milk" "2026-01-02T03:04:05") fresh_world)))
  /\ (count (data fresh_world)
      <= count (data (fst (perform isoformat_minutes
                             (Create "Buy milk" "2026-01-02T03:04:05")
                             fresh_world))))%Z.
Proof.
  assert (H : store_invariant (data fresh_world)).
  { split; constructor. }
  split; [exact H|].
  exact (operations_preserve_invariant isoformat_minutes
           (Create "Buy milk" "2026-01-02T03:04:05") fresh_world H).
Defined.

(** ** Failing updates *)

Lemma world_with_same_tasks (w : World) (ts : list Task.t) :
  ts = tasks (data w) ->
  {| data := {| tasks := ts; count := count (data w) |};
     disk := disk w; stdout := stdout w |} = w.
Proof. intros ->. apply world_eta. Qed.

(** C4. Whatever the state: when [int(task_id)] fails, [update_task] raises
    the [InvalidArgument] error of an invalid identifier; when the
    identifier is an integer that no task carries, [update_task] raises and
    the error is [NotFound], given a status argument that passes its own
    check (absent, empty or valid; an invalid one is reported first).  In
    each of these cases the method leaves the world as it found it: tasks,
    counter and file are unchanged and the file is not written. *)
Theorem update_bad_or_absent_id_fails (task_id : id_arg)
    (description : string) (status : option string) (now : string)
    (w : World) :
  (int_of_arg task_id = None ->
   update_task task_id description status now w
   = (w, Raised (InvalidTaskId task_id))
   /\ kind_of (InvalidTaskId task_id) = Some InvalidArgument)
  /\ (forall n,
        int_of_arg task_id = Some n ->
        ~ In n (map Task.id (tasks (data w))) ->
        exists e,
          update_task task_id description status now w = (w, Raised e)
          /\ (status_accepted status = true ->
              e = TaskNotFound n /\ kind_of e = Some NotFound)).
Proof.
  rewrite update_task_cases. split.
  - intros ->. split; reflexivity.
  - intros n -> Habsent.
    destruct (status_accepted status).
    + rewrite (update_first_absent _ _ _ _ _ Habsent). cbv beta iota zeta.
      rewrite world_with_same_tasks by reflexivity.
      exists (TaskNotFound n). repeat split.
    + exists (InvalidStatus status). split; [reflexivity|discriminate].
Qed.

Lemma update_bad_or_absent_id_fails_witness :
  (int_of_arg (IdStr "abc") = None
   /\ update_task (IdStr "abc") "d" None "2026-01-02T03:04:05" fresh_world
      = (fresh_world, Raised (InvalidTaskId (IdStr "abc"))))
  /\ (int_of_arg (IdStr "7") = Some 7%Z
      /\ ~ In 7%Z (map Task.id (tasks (data fresh_world)))
      /\ status_accepted (Some "done") = true
      /\ exists e,
           update_task (IdStr "7") "d" (Some "done") "2026-01-02T03:04:05"
                       fresh_world = (fresh_world, Raised e)
           /\ (status_accepted (Some "done") = true ->
               e = TaskNotFound 7 /\ kind_of e = Some NotFound)).
Proof.
  split.
  - split; [reflexivity|].
    exact (proj1 (proj1 (update_bad_or_absent_id_fails (IdStr "abc") "d" None
                           "2026-01-02T03:04:05" fresh_world) eq_refl)).
  - split; [reflexivity|]. split; [intros []|]. split; [reflexivity|].
    exact (proj2 (update_bad_or_absent_id_fails (IdStr "7") "d" (Some "done")
                    "2026-01-02T03:04:05" fresh_world) 7%Z eq_refl
                 (fun H : In 7%Z [] => H)).
Defined.

(** C5. A provided status (one that is not empty) outside [todo],
    [in-progress], [done], for instance ["bogus"], makes [update_task] raise
    an [InvalidArgument] error, whatever the identifier and the description;
    no task is modified: the world is left as it was. *)
Theorem update_invalid_status_fails (task_id : id_arg)
    (description s now : string) (w : World) :
  provided (Some s) = true ->
  status_in (Some s) valid_statuses = false ->
  exists e,
    update_task task_id description (Some s) now w = (w, Raised e)
    /\ kind_of e = Some InvalidArgument.
Proof.
  intros Hp Hv. rewrite update_task_cases. unfold status_accepted.
  rewrite Hp, Hv. cbn [negb andb].
  destruct (int_of_arg task_id) as [n|].
  - exists (InvalidStatus (Some s)). split; reflexivity.
  - exists (InvalidTaskId task_id). split; reflexivity.
Qed.

Lemma update_invalid_status_fails_witness :
  provided (Some "bogus") = true
  /\ status_in (Some "bogus") valid_statuses = false
  /\ exists e,
       update_task (IdInt 1) EmptyString (Some "bogus") "2026-01-02T03:04:05"
         one_task_world
       = (one_task_world, Raised e)
       /\ kind_of e = Some InvalidArgument.
Proof.
  split; [reflexivity|]. split; [reflexivity|].
  exact (update_invalid_status_fails (IdInt 1) EmptyString "bogus"
           "2026-01-02T03:04:05" one_task_world eq_refl eq_refl).
Defined.

(** C10. For an identifier that some task carries and a description that is
    not empty, [update_task] with no status returns, and the first task with
    that identifier now has the given description (and [updatedAt] set to the
    current time); the other fields and the other tasks are as before, and
    the state is persisted.  The description may be made of white space
    only, which [new_task] refuses. *)
Theorem update_replaces_description (task_id : id_arg)
    (description now : string) (w : World) (n : Z) :
  int_of_arg task_id = Some n ->
  In n (map Task.id (tasks (data w))) ->
  truthy description = true ->
  (exists before task after,
     tasks (data w) = before ++ task :: after
     /\ ~ In n (map Task.id before)
     /\ Task.id task = n
     /\ update_task task_id description None now w =
        (let d := {| tasks :=
                       before ++
                       {| Task.id := n;
                          Task.description := description;
                          Task.status := Task.status task;
                          Task.createdAt := Task.createdAt task;
                          Task.updatedAt := Some now |} :: after;
                     count := count (data w) |} in
         {| data := d; disk := dump (to_json d) (disk w);
            stdout := stdout w |}, Returned tt))
  /\ (all_space description = true ->
      new_task description now w = (w, Raised EmptyDescription)).
Proof.
  intros Hid HIn Hd. split; [|apply new_task_blank].
  destruct (update_first_present n description None now _ HIn)
    as (before & task & after & Ets & Hb & Ht & Hu).
  exists before, task, after. repeat split; auto.
  rewrite update_task_cases, Hid. cbn [status_accepted provided andb negb].
  rewrite Hu. unfold apply_update. rewrite Hd, Ht. reflexivity.
Qed.

Lemma update_replaces_description_witness :
  int_of_arg (IdStr "1") = Some 1%Z
  /\ truthy " " = true
  /\ all_space " " = true
  /\ map Task.description
       (tasks (data (fst (update_task (IdStr "1") " " None
                            "2026-01-02T04:00:00" one_task_world))))
     = [" "].
Proof.
  split; [reflexivity|]. split; [reflexivity|]. split; [reflexivity|].
  destruct (proj1 (update_replaces_description (IdStr "1") " "
                     "2026-01-02T04:00:00" one_task_world
                     1%Z eq_refl (or_introl eq_refl) eq_refl))
    as (before & task & after & Ets & Hb & Ht & Hu).
  rewrite Hu. cbv zeta. cbn [fst data tasks].
  destruct before as [|t0 [|t1 before]]; cbn in Ets.
  - injection Ets as _ <-. reflexivity.
  - injection Ets as E _. exfalso. apply Hb. left. now rewrite <- E.
  - discriminate.
Defined.

(** ** Deleted identifiers *)

(** An identifier at most the counter that no task carries stays so along
    every run: creation hands out larger ones only. *)
Lemma run_keeps_absent (fmt : string -> option string) (n : Z)
    (ops : list operation) (w : World) :
  ids_bounded (data w) ->
  (n <= count (data w))%Z ->
  ~ In n (map Task.id (tasks (data w))) ->
  ids_bounded (data (fst (run fmt ops w)))
  /\ (n <= count (data (fst (run fmt ops w))))%Z
  /\ ~ In n (map Task.id (tasks (data (fst (run fmt ops w))))).
Proof.
  revert w. induction ops as [|o r IH]; intros w Hb Hn Habs; cbn [run].
  - auto.
  - assert (Hstep : ids_bounded (data (fst (perform fmt o w)))
                    /\ (n <= count (data (fst (perform fmt o w))))%Z
                    /\ ~ In n (map Task.id
                                 (tasks (data (fst (perform fmt o w)))))).
    { unfold ids_bounded in *.
      destruct (perform_data fmt o w)
        as [E|[(description & now & E)
              |[(m & description & status & now & E)|(m & E)]]];
        cbv zeta in E; rewrite E; cbn [tasks count].
      - auto.
      - repeat split; try lia.
        + apply Forall_app. split.
          * apply (ids_bounded_weaken _ (count (data w))); [lia|exact Hb].
          * constructor; [cbn; lia|constructor].
        + rewrite map_app. intros H. apply in_app_or in H as [H|[H|[]]].
          * contradiction.
          * cbn in H. lia.
      - repeat split; try lia.
        + apply (bounded_by_ids (tasks (data w))); [|exact Hb].
          intros k. now rewrite update_first_ids.
        + now rewrite update_first_ids.
      - repeat split; try lia.
        + apply (bounded_by_ids (tasks (data w))); [|exact Hb].
          intros k. apply without_subset.
        + intros H. apply Habs. eapply without_subset, H. }
    destruct (perform fmt o w) as [w1 res]. cbn [fst] in Hstep.
    destruct Hstep as (Hb1 & Hn1 & Habs1).
    specialize (IH w1 Hb1 Hn1 Habs1).
    destruct (run fmt r w1) as [w2 rest]. exact IH.
Qed.

(** C6. After [delete_task] has returned for an identifier, a second
    [delete_task] for it raises the [NotFound] error and changes nothing.
    In a state where every task identifier is at most the counter, no later
    creation returns the deleted identifier, whatever operations follow, and
    no task carries it again. *)
Theorem deleted_id_is_gone (fmt : string -> option string)
    (task_id : id_arg) (w w1 : World) :
  delete_task task_id w = (w1, Returned tt) ->
  exists n,
    int_of_arg task_id = Some n
    /\ In n (map Task.id (tasks (data w)))
    /\ delete_task task_id w1 = (w1, Raised (TaskNotFound n))
    /\ kind_of (TaskNotFound n) = Some NotFound
    /\ (ids_bounded (data w) ->
        forall ops,
          ~ In n (created_ids (snd (run fmt ops w1)))
          /\ ~ In n (map Task.id (tasks (data (fst (run fmt ops w1)))))).
Proof.
  rewrite delete_task_cases.
  destruct (int_of_arg task_id) as [n|] eqn:Hid; [|discriminate].
  cbv zeta.
  destruct (List.length (without n (tasks (data w)))
            =? List.length (tasks (data w)))%nat eqn:Hlen; [discriminate|].
  intros E. injection E as <-. exists n.
  assert (HIn : In n (map Task.id (tasks (data w)))).
  { destruct (in_dec Z.eq_dec n (map Task.id (tasks (data w)))) as [H|H];
      [exact H|].
    rewrite (without_absent n _ H), Nat.eqb_refl in Hlen. discriminate. }
  split; [reflexivity|]. split; [exact HIn|]. split; [|split; [reflexivity|]].
  - rewrite delete_task_cases, Hid. cbv zeta.
    cbn [data disk stdout tasks count].
    rewrite (without_absent n (without n (tasks (data w))))
      by apply without_removes.
    rewrite Nat.eqb_refl. reflexivity.
  - intros Hb ops.
    set (w1 := {| data := _; disk := _; stdout := _ |}).
    assert (Hn : (n <= count (data w))%Z).
    { unfold ids_bounded in Hb. rewrite Forall_forall in Hb.
      apply in_map_iff in HIn as (task & <- & HIn). now apply Hb. }
    assert (Hb1 : ids_bounded (data w1)).
    { unfold ids_bounded. cbn.
      apply (bounded_by_ids (tasks (data w))); [|exact Hb].
      intros k. apply without_subset. }
    split.
    + rewrite run_created_ids. intros H.
      pose proof (consecutive_lower (count (data w1) + 1)
                    (List.length (filter valid_create ops))) as Hlow.
      rewrite Forall_forall in Hlow. specialize (Hlow n H). cbn in Hlow. lia.
    + apply (run_keeps_absent fmt n ops w1 Hb1 Hn). apply without_removes.
Qed.

Lemma deleted_id_is_gone_witness :
  delete_task (IdStr "1") one_task_world
  = (fst (delete_task (IdStr "1") one_task_world), Returned tt)
  /\ ids_bounded (data one_task_world)
  /\ exists n,
       int_of_arg (IdStr "1") = Some n
       /\ delete_task (IdStr "1") (fst (delete_task (IdStr "1") one_task_world))
          = (fst (delete_task (IdStr "1") one_task_world),
             Raised (TaskNotFound n))
       /\ ~ In n (created_ids
                    (snd (run isoformat_minutes
                            [Create "Write report" "2026-01-02T03:04:06"]
                            (fst (delete_task (IdStr "1") one_task_world))))).
Proof.
  split; [reflexivity|].
  assert (Hb : ids_bounded (data one_task_world)).
  { unfold ids_bounded. cbn. constructor; [cbn; lia|constructor]. }
  split; [exact Hb|].
  destruct (deleted_id_is_gone isoformat_minutes (IdStr "1") one_task_world
              (fst (delete_task (IdStr "1") one_task_world)) eq_refl)
    as (n & Hid & _ & Hdel & _ & Hrun).
  exists n. split; [exact Hid|]. split; [exact Hdel|].
  exact (proj1 (Hrun Hb [Create "Write report" "2026-01-02T03:04:06"])).
Defined.

(** ** Where the hypotheses matter *)

(** The status is checked before the scan: an invalid status on an
    identifier that no task carries is reported as an invalid status. *)
Remark update_checks_status_first :
  update_task (IdInt 99) EmptyString (Some "bogus") "2026-01-02T03:04:05"
              fresh_world
  = (fresh_world, Raised (InvalidStatus (Some "bogus"))).
Proof. reflexivity. Qed.

Lemma update_first_empty_status (n : Z) (description now : string)
    (ts : list Task.t) :
  update_first n description (Some EmptyString) now ts
  = update_first n description None now ts.
Proof.
  induction ts as [|task r IH]; cbn [update_first]; [reflexivity|].
  now rewrite IH.
Qed.

(** An empty status is an absent status: it is neither checked nor
    stored. *)
Remark update_empty_status_is_absent (task_id : id_arg)
    (description now : string) (w : World) :
  update_task task_id description (Some EmptyString) now w
  = update_task task_id description None now w.
Proof.
  rewrite !update_task_cases. destruct (int_of_arg task_id) as [n|];
    [|reflexivity].
  cbn [status_accepted provided truthy andb negb].
  now rewrite update_first_empty_status.
Qed.

(** A store whose counter is below an identifier in use, as a hand-edited
    file can make it, hands that identifier out again. *)
Remark counter_below_id_is_reused :
  snd (run isoformat_minutes
         [Delete (IdInt 1); Create "Write report" "2026-01-02T03:04:05"]
         {| data := {| tasks := [{| Task.id := 1;
                                    Task.description := "Buy milk";
                                    Task.status := "todo";
                                    Task.createdAt := "2026-01-02T03:04:05";
                                    Task.updatedAt := None |}];
                       count := 0 |};
            disk := {| content := None; writes := 0 |};
            stdout := [] |})
  = [Returned None; Returned (Some 1%Z)].
Proof. reflexivity. Qed.

(** ** Listing an empty result *)

Lemma messages_differ (status_filter : string) :
  no_tasks_found <> no_tasks_with_status status_filter.
Proof. unfold no_tasks_found, no_tasks_with_status. cbn. discriminate. Qed.

(** C9, on a store without any task: listing with the filter [done] prints
    the message of the unfiltered case, not the one that names the status,
    although the store holds no task with that status. *)
Lemma list_filter_on_empty_store :
  tasks (data fresh_world) = []
  /\ list_tasks isoformat_minutes "done" fresh_world
     = ({| data := data fresh_world; disk := disk fresh_world;
           stdout := ["No tasks found."] |}, Returned tt)
  /\ "No tasks found." <> no_tasks_with_status "done".
Proof.
  split; [reflexivity|]. split; [reflexivity|]. apply messages_differ.
Qed.

(** C9, amended.  When the store holds no task, [list_tasks] prints
    [No tasks found.], with or without a filter.  When it holds tasks and a
    filter is given that no task matches, it prints
    [No tasks with status '...' found.], a different message.  In both cases
    nothing else is printed and nothing else changes.  Without a filter a
    store that holds tasks gets the table of all of them. *)
Theorem list_empty_result_messages (fmt : string -> option string)
    (status_filter : string) (w : World) :
  (tasks (data w) = [] ->
   list_tasks fmt status_filter w
   = ({| data := data w; disk := disk w;
         stdout := stdout w ++ [no_tasks_found] |}, Returned tt))
  /\ (tasks (data w) <> [] ->
      truthy status_filter = true ->
      filter (fun task => String.eqb (Task.status task) status_filter)
             (tasks (data w)) = [] ->
      list_tasks fmt status_filter w
      = ({| data := data w; disk := disk w;
            stdout := stdout w ++ [no_tasks_with_status status_filter] |},
         Returned tt))
  /\ (tasks (data w) <> [] ->
      truthy status_filter = false ->
      list_tasks fmt status_filter w = print_table fmt (tasks (data w)) w)
  /\ no_tasks_found <> no_tasks_with_status status_filter.
Proof.
  unfold list_tasks, bind, get_data. repeat split.
  - intros ->. reflexivity.
  - intros Hne Hf Hnone. destruct (tasks (data w)) as [|t0 r0] eqn:Ets;
      [contradiction|].
    rewrite Hf, Hnone. reflexivity.
  - intros Hne Hf. destruct (tasks (data w)) as [|t0 r0] eqn:Ets;
      [contradiction|].
    rewrite Hf. reflexivity.
  - apply messages_differ.
Qed.

Lemma list_empty_result_messages_witness :
  (tasks (data fresh_world) = []
   /\ list_tasks isoformat_minutes "done" fresh_world
      = ({| data := data fresh_world; disk := disk fresh_world;
            stdout := stdout fresh_world ++ [no_tasks_found] |}, Returned tt))
  /\ (tasks (data one_task_world) <> []
      /\ truthy "done" = true
      /\ list_tasks isoformat_minutes "done" one_task_world
         = ({| data := data one_task_world; disk := disk one_task_world;
               stdout := stdout one_task_world
                         ++ [no_tasks_with_status "done"] |}, Returned tt))
  /\ (truthy EmptyString = false
      /\ list_tasks isoformat_minutes EmptyString one_task_world
         = print_table isoformat_minutes (tasks (data one_task_world))
                       one_task_world).
Proof.
  assert (Hne : tasks (data one_task_world) <> []) by discriminate.
  split; [|split].
  - split; [reflexivity|].
    exact (proj1 (list_empty_result_messages isoformat_minutes "done"
                    fresh_world) eq_refl).
  - split; [exact Hne|]. split; [reflexivity|].
    exact (proj1 (proj2 (list_empty_result_messages isoformat_minutes "done"
                           one_task_world)) Hne eq_refl eq_refl).
  - split; [reflexivity|].
    exact (proj1 (proj2 (proj2 (list_empty_result_messages isoformat_minutes
                                  EmptyString one_task_world)))
                 Hne eq_refl).
Defined.

(** * The decoder reads back what the encoder writes *)

Ltac decide_tests :=
  repeat match goal with
  | |- context [(?a =? ?b)%N] => destruct (N.eqb_spec a b); try lia
  | |- context [(?a <=? ?b)%N] => destruct (N.leb_spec a b); try lia
  | |- context [(?a <? ?b)%N] => destruct (N.ltb_spec a b); try lia
  end; cbn [andb orb negb].

(** ** Strings *)

Lemma hex_val_hex_digit (d : N) :
  (d < 16)%N -> hex_val (hex_digit d) = Some d.
Proof.
  intros H. unfold hex_val, hex_digit. decide_tests; f_equal; lia.
Qed.

Lemma hex4_of_escape (c : N) (rest : text) :
  (c < 65536)%N ->
  hex4 (hex_digit (c / 4096 mod 16) :: hex_digit (c / 256 mod 16)
        :: hex_digit (c / 16 mod 16) :: hex_digit (c mod 16) :: rest)
  = Some (c, rest).
Proof.
  intros H. unfold hex4.
  rewrite !hex_val_hex_digit by (apply N.mod_lt; lia).
  do 2 f_equal. zify. Z.to_euclidean_division_equations. lia.
Qed.

Lemma scanstring_escape_char (c : N) (f : nat) (r : text) :
  (c < 55296)%N ->
  scanstring (S f) (escape_char c ++ r) = map_parsed (cons c) (scanstring f r).
Proof.
  intros H. unfold escape_char.
  destruct (N.eqb_spec c 34) as [->|H34]; [reflexivity|].
  destruct (N.eqb_spec c 92) as [->|H92]; [reflexivity|].
  destruct (N.eqb_spec c 10) as [->|H10]; [reflexivity|].
  destruct (N.eqb_spec c 13) as [->|H13]; [reflexivity|].
  destruct (N.eqb_spec c 9) as [->|H9]; [reflexivity|].
  destruct (N.eqb_spec c 12) as [->|H12]; [reflexivity|].
  destruct (N.eqb_spec c 8) as [->|H8]; [reflexivity|].
  destruct ((32 <=? c) && (c <=? 126))%N eqn:Hp.
  - apply andb_prop in Hp as [Hlo Hhi]. apply N.leb_le in Hlo, Hhi.
    cbn [app scanstring]. decide_tests. reflexivity.
  - replace (c <? 65536)%N with true by (symmetry; apply N.ltb_lt; lia).
    cbn [u_escape app scanstring].
    change (92 =? 34)%N with false. change (92 =? 92)%N with true.
    change (117 =? 117)%N with true. cbv iota.
    rewrite hex4_of_escape by lia.
    unfold is_high_surrogate. decide_tests. reflexivity.
Qed.

Lemma scanstring_encoded (s : text) (fuel : nat) (rest : text) :
  plain s ->
  (List.length s < fuel)%nat ->
  scanstring fuel (flat_map escape_char s ++ 34%N :: rest) = Parsed s rest.
Proof.
  revert fuel. induction s as [|c s IH]; intros fuel Hs Hf;
    (destruct fuel as [|f]; [cbn in Hf; lia|]).
  - reflexivity.
  - inversion Hs as [|? ? Hc Hs']; subst.
    cbn [flat_map]. rewrite <- app_assoc.
    rewrite scanstring_escape_char by exact Hc.
    rewrite IH; [reflexivity|exact Hs'|cbn in Hf; lia].
Qed.

(** ** Integers *)

Lemma digits_value_acc (d : Decimal.uint) (p : positive) :
  digits_value (Npos p) (uint_text d) = Npos (Pos.of_uint_acc d p).
Proof.
  revert p. induction d; intros p; cbn [uint_text digits_value Pos.of_uint_acc];
    [reflexivity|..];
    match goal with
    | |- digits_value ?a _ = _ =>
        match goal with
        | |- _ = N.pos (Pos.of_uint_acc _ ?q) =>
            replace a with (N.pos q) by lia; apply IHd
        end
    end.
Qed.

Lemma digits_value_uint (d : Decimal.uint) :
  digits_value 0 (uint_text d) = Pos.of_uint d.
Proof.
  induction d; cbn [uint_text digits_value Pos.of_uint];
    [reflexivity|exact IHd|..];
    match goal with
    | |- digits_value ?a _ = N.pos (Pos.of_uint_acc _ ?q) =>
        change a with (N.pos q); apply digits_value_acc
    end.
Qed.

Lemma span_digits_uint (d : Decimal.uint) (rest : text) :
  delimited rest -> span_digits (uint_text d ++ rest) = (uint_text d, rest).
Proof.
  intros Hr. induction d; cbn [uint_text app span_digits];
    [|change (is_digit _) with true; cbv iota; rewrite IHd; reflexivity ..].
  destruct rest as [|c r]; [reflexivity|]. cbn [span_digits].
  unfold is_digit. destruct Hr as [->| ->]; reflexivity.
Qed.

Lemma to_uint_lead (p : positive) :
  match Pos.to_uint p with
  | Decimal.Nil | Decimal.D0 _ => False
  | _ => True
  end.
Proof.
  pose proof (DecimalPos.Unsigned.to_of (Pos.to_uint p)) as H.
  rewrite DecimalPos.Unsigned.of_to in H. cbn [N.to_uint] in H.
  pose proof (DecimalPos.Unsigned.to_uint_nonzero p) as Hz.
  pose proof (DecimalPos.Unsigned.to_uint_nonnil p) as Hn.
  destruct (Pos.to_uint p) as [|u|u|u|u|u|u|u|u|u|u]; try exact I.
  - now apply Hn.
  - unfold Decimal.unorm in H. cbn [Decimal.nzhead] in H.
    pose proof (DecimalFacts.nzhead_nonzero u) as Hh.
    destruct (Decimal.nzhead u) eqn:E;
      try (symmetry in H; exact (Hh _ H) || discriminate H).
    apply Hz. exact H.
Qed.

Lemma frac_part_delimited (rest : text) :
  delimited rest -> frac_part rest = ([], rest).
Proof.
  destruct rest as [|c [|d r]]; [reflexivity|reflexivity|].
  intros [->| ->]; reflexivity.
Qed.

Lemma exp_part_delimited (rest : text) :
  delimited rest -> exp_part rest = ([], rest).
Proof.
  destruct rest as [|c r]; [reflexivity|]. intros [->| ->]; reflexivity.
Qed.

Lemma int_part_positive (p : positive) (rest : text) :
  delimited rest ->
  int_part (uint_text (Pos.to_uint p) ++ rest)
  = Some (uint_text (Pos.to_uint p), rest)
  /\ head_is 45 (uint_text (Pos.to_uint p) ++ rest) = None.
Proof.
  intros Hr. pose proof (to_uint_lead p) as Hl.
  destruct (Pos.to_uint p) as [|u|u|u|u|u|u|u|u|u|u]; try contradiction;
    cbn [uint_text app int_part head_is];
    change (is_digit _) with true; cbv iota;
    (split; [|reflexivity]);
    match goal with |- (if ?b then _ else _) = _ => change b with false end;
    cbv iota; rewrite (span_digits_uint u rest Hr); reflexivity.
Qed.

Lemma match_number_int (z : Z) (rest : text) :
  delimited rest ->
  match_number (int_repr z ++ rest) = Some (JInt z, rest).
Proof.
  intros Hr. unfold match_number.
  destruct z as [|p|p]; cbn [int_repr app].
  - change (48 =? 45)%N with false. cbv iota.
    cbn [int_part]. change (48 =? 48)%N with true. cbv iota.
    rewrite (frac_part_delimited rest Hr), (exp_part_delimited rest Hr).
    reflexivity.
  - destruct (int_part_positive p rest Hr) as [Hi Hm].
    destruct (uint_text (Pos.to_uint p) ++ rest) as [|c r] eqn:E;
      [discriminate Hi|].
    cbn [head_is] in Hm. destruct (c =? 45)%N; [discriminate Hm|].
    rewrite Hi, (frac_part_delimited rest Hr), (exp_part_delimited rest Hr).
    rewrite digits_value_uint, DecimalPos.Unsigned.of_to. reflexivity.
  - change (45 =? 45)%N with true. cbv iota.
    destruct (int_part_positive p rest Hr) as [Hi _].
    rewrite Hi, (frac_part_delimited rest Hr), (exp_part_delimited rest Hr).
    rewrite digits_value_uint, DecimalPos.Unsigned.of_to. reflexivity.
Qed.

(** ** Values *)

Lemma json_induction (P : json -> Prop) :
  P JNull ->
  (forall b, P (JBool b)) ->
  (forall z, P (JInt z)) ->
  (forall lexeme, P (JFloat lexeme)) ->
  (forall s, P (JStr s)) ->
  (forall xs, Forall P xs -> P (JArr xs)) ->
  (forall kvs, Forall (fun kv => P (snd kv)) kvs -> P (JObj kvs)) ->
  forall v, P v.
Proof.
  intros HN HB HI HF HS HA HO. fix IH 1.
  intros [ |b|z|lexeme|s|xs|kvs].
  - exact HN.
  - apply HB.
  - apply HI.
  - apply HF.
  - apply HS.
  - apply HA. revert xs. fix IHxs 1.
    intros [|x xs]; constructor; [apply IH|apply IHxs].
  - apply HO. revert kvs. fix IHkvs 1.
    intros [|kv kvs]; constructor; [apply IH|apply IHkvs].
Qed.

Lemma regular_items (xs : list json) :
  regular (JArr xs) -> Forall regular xs.
Proof.
  induction xs as [|x r IH]; cbn; intros H; constructor; tauto.
Qed.

Lemma regular_members (kvs : list (text * json)) :
  regular (JObj kvs) ->
  NoDup (map fst kvs)
  /\ Forall (fun kv => plain (fst kv) /\ regular (snd kv)) kvs.
Proof.
  intros [Hn H]. split; [exact Hn|]. clear Hn.
  induction kvs as [|kv r IH]; constructor; cbn in H; tauto.
Qed.

Lemma skip_ws_start (t : text) : starts_value t -> skip_ws t = t.
Proof.
  destruct t as [|c r]; [contradiction|]. intros [Hc _]. cbn. now rewrite Hc.
Qed.

Lemma skip_ws_blanks (n : nat) (t : text) :
  skip_ws (repeat 32%N n ++ t) = skip_ws t.
Proof. induction n as [|n IH]; [reflexivity|exact IH]. Qed.

Lemma skip_ws_indent (level : nat) (t : text) :
  skip_ws (newline_indent level ++ t) = skip_ws t.
Proof. unfold newline_indent. cbn. apply skip_ws_blanks. Qed.

Lemma uint_text_head (d : Decimal.uint) :
  d <> Decimal.Nil ->
  exists c r, uint_text d = c :: r /\ (48 <= c <= 57)%N.
Proof.
  destruct d; [contradiction|..]; intros _; cbn [uint_text];
    eexists _, _; (split; [reflexivity|lia]).
Qed.

Lemma int_repr_head (z : Z) :
  exists c r,
    int_repr z = c :: r
    /\ ((48 <= c <= 57)%N
        \/ (c = 45%N /\ exists d r', r = d :: r' /\ (48 <= d <= 57)%N)).
Proof.
  destruct z as [|p|p]; cbn [int_repr].
  - eexists _, _. split; [reflexivity|left; lia].
  - destruct (uint_text_head _ (DecimalPos.Unsigned.to_uint_nonnil p))
      as (c & r & E & Hc).
    exists c, r. auto.
  - destruct (uint_text_head _ (DecimalPos.Unsigned.to_uint_nonnil p))
      as (c & r & E & Hc).
    eexists _, _. split; [reflexivity|]. right. split; [reflexivity|].
    exists c, r. auto.
Qed.

Lemma constant_int (z : Z) (rest : text) :
  constant (int_repr z ++ rest) = None.
Proof.
  destruct (int_repr_head z) as (c & r & -> & [Hc|[-> (d & r' & -> & Hd)]]);
    unfold constant;
    change (code "null") with [110; 117; 108; 108]%N;
    change (code "true") with [116; 114; 117; 101]%N;
    change (code "false") with [102; 97; 108; 115; 101]%N;
    change (code "NaN") with [78; 97; 78]%N;
    change (code "Infinity") with [73; 110; 102; 105; 110; 105; 116; 121]%N;
    change (code "-Infinity")
      with [45; 73; 110; 102; 105; 110; 105; 116; 121]%N;
    cbn [app starts_with].
  - decide_tests; reflexivity.
  - change (45 =? 45)%N with true. cbv iota.
    change (110 =? 45)%N with false. change (116 =? 45)%N with false.
    change (102 =? 45)%N with false. change (78 =? 45)%N with false.
    change (73 =? 45)%N with false. cbv iota.
    decide_tests; reflexivity.
Qed.

Lemma scan_once_int (z : Z) (rest : text) (f : nat) :
  delimited rest ->
  scan_once (S f) (int_repr z ++ rest) = Parsed (JInt z) rest.
Proof.
  intros Hr.
  pose proof (constant_int z rest) as Hc.
  pose proof (match_number_int z rest Hr) as Hm.
  destruct (int_repr_head z) as (c & r & E & Hhead).
  rewrite E in *. cbn [app] in *. cbn [scan_once].
  assert (H34 : (c =? 34)%N = false) by (apply N.eqb_neq; lia).
  assert (H123 : (c =? 123)%N = false) by (apply N.eqb_neq; lia).
  assert (H91 : (c =? 91)%N = false) by (apply N.eqb_neq; lia).
  rewrite H34, H123, H91, Hc, Hm. reflexivity.
Qed.

Lemma escape_char_length (c : N) : (1 <= List.length (escape_char c))%nat.
Proof.
  unfold escape_char.
  repeat match goal with
         | |- context [if ?b then _ else _] => destruct b
         end; cbn; lia.
Qed.

Lemma escaped_length (s : text) :
  (List.length s <= List.length (flat_map escape_char s))%nat.
Proof.
  induction s as [|c s IH]; cbn [flat_map List.length]; [lia|].
  rewrite length_app. pose proof (escape_char_length c). lia.
Qed.

Lemma scanstring_basestring (s rest : text) :
  plain s ->
  exists r,
    encode_basestring_ascii s ++ rest = 34%N :: r
    /\ scanstring (S (List.length r)) r = Parsed s rest.
Proof.
  intros Hs. exists (flat_map escape_char s ++ 34%N :: rest). split.
  - unfold encode_basestring_ascii. cbn [app]. now rewrite <- app_assoc.
  - apply scanstring_encoded; [exact Hs|].
    rewrite length_app. pose proof (escaped_length s). lia.
Qed.

Lemma encode_starts (level : nat) (v : json) (rest : text) :
  regular v -> starts_value (encode level v ++ rest).
Proof.
  destruct v as [ |[|]|z|lexeme|s|[|x xs]|[|kv kvs]]; cbn [regular];
    intros H; try contradiction;
    try (cbn [encode encode_basestring_ascii app]; split;
         [reflexivity|discriminate]).
  cbn [encode]. destruct (int_repr_head z) as (c & r & -> & Hh).
  cbn [app starts_value]. unfold is_ws.
  split; [decide_tests; reflexivity|lia].
Qed.

Lemma join_starts (level : nat) (sep : text) (x : json) (xs : list json)
    (rest : text) :
  regular x ->
  starts_value (join sep (map (encode level) (x :: xs)) ++ rest).
Proof.
  intros Hx. destruct xs as [|y r]; cbn [map join].
  - now apply encode_starts.
  - rewrite <- app_assoc. now apply encode_starts.
Qed.

Lemma skip_ws_nonblank (c : N) (t : text) :
  is_ws c = false -> skip_ws (c :: t) = c :: t.
Proof. intros H. cbn. now rewrite H. Qed.

Lemma head_is_same (c : N) (t : text) : head_is c (c :: t) = Some t.
Proof. cbn. now rewrite N.eqb_refl. Qed.

Lemma head_is_other (c d : N) (t : text) :
  d <> c -> head_is c (d :: t) = None.
Proof. intros H. cbn. apply N.eqb_neq in H. now rewrite H. Qed.

Lemma join_cons (sep p : text) (l : list text) :
  l <> [] -> join sep (p :: l) = p ++ sep ++ join sep l.
Proof. destruct l; [contradiction|reflexivity]. Qed.

Lemma parse_items_encoded (level : nat) (xs : list json) :
  Forall (fun x => regular x /\ reads_back (S level) x) xs ->
  xs <> [] ->
  forall rest fuel,
    (2 * List.length
           (join (code "," ++ newline_indent (S level))
                 (map (encode (S level)) xs)
            ++ newline_indent level ++ 93%N :: rest) + 2 <= fuel)%nat ->
    parse_items fuel
      (join (code "," ++ newline_indent (S level))
            (map (encode (S level)) xs)
       ++ newline_indent level ++ 93%N :: rest)
    = Parsed xs rest.
Proof.
  induction 1 as [|x r [Hx IHx] Hr IH]; [contradiction|].
  intros _ rest fuel Hf. destruct fuel as [|f]; [lia|].
  destruct r as [|y r'].
  - cbn [map join] in *. cbn [parse_items].
    rewrite IHx; [|right; reflexivity|lia].
    rewrite skip_ws_indent, (skip_ws_nonblank 93), head_is_same by reflexivity.
    reflexivity.
  - inversion Hr as [|? ? [Hy _] _]; subst.
    specialize (IH ltac:(discriminate) rest f).
    pose proof (join_starts (S level) (code "," ++ newline_indent (S level))
                  y r' (newline_indent level ++ 93%N :: rest) Hy) as Hs.
    change (map (encode (S level)) (x :: y :: r'))
      with (encode (S level) x :: map (encode (S level)) (y :: r')) in *.
    rewrite join_cons in * by discriminate.
    set (J := join _ (map (encode (S level)) (y :: r'))) in *.
    rewrite <- !app_assoc in Hf |- *.
    change (code "," ++ ?t) with (44%N :: t) in Hf |- *.
    cbn [parse_items].
    rewrite IHx; [|left; reflexivity|lia].
    rewrite (skip_ws_nonblank 44) by reflexivity.
    rewrite (head_is_other 93 44) by discriminate.
    rewrite head_is_same, skip_ws_indent, (skip_ws_start _ Hs).
    rewrite IH; [reflexivity|].
    rewrite !length_app in Hf. cbn [List.length] in Hf.
    rewrite !length_app in Hf. rewrite !length_app. cbn [List.length] in *.
    lia.
Qed.

Lemma member_starts (level : nat) (sep : text) (kv : text * json)
    (kvs : list (text * json)) (rest : text) :
  exists r,
    join sep (map (member_text level) (kv :: kvs)) ++ rest = 34%N :: r.
Proof.
  destruct kvs as [|kv' r]; cbn [map join]; eexists; reflexivity.
Qed.

Lemma parse_members_encoded (level : nat) (kvs : list (text * json)) :
  Forall (fun kv => plain (fst kv) /\ regular (snd kv)
                    /\ reads_back (S level) (snd kv)) kvs ->
  kvs <> [] ->
  forall rest fuel,
    (2 * List.length
           (join (code "," ++ newline_indent (S level))
                 (map (member_text (S level)) kvs)
            ++ newline_indent level ++ 125%N :: rest) + 2 <= fuel)%nat ->
    parse_members fuel
      (join (code "," ++ newline_indent (S level))
            (map (member_text (S level)) kvs)
       ++ newline_indent level ++ 125%N :: rest)
    = Parsed kvs rest.
Proof.
  induction 1 as [|[k v] r (Hk & Hv & IHv) Hr IH]; [contradiction|].
  cbn [fst snd] in *.
  intros _ rest fuel Hf. destruct fuel as [|f]; [lia|].
  assert (Hone :
    forall tail,
      delimited tail ->
      (2 * List.length (member_text (S level) (k, v) ++ tail) + 2 <= S f)%nat ->
      exists r0,
        member_text (S level) (k, v) ++ tail = 34%N :: r0
        /\ scanstring (S (List.length r0)) r0
           = Parsed k (58%N :: 32%N :: encode (S level) v ++ tail)
        /\ scan_once f (encode (S level) v ++ tail) = Parsed v tail).
  { intros tail Ht Hlen. unfold member_text in *. cbn [fst snd] in *.
    rewrite <- !app_assoc in *.
    change (code ": " ++ ?t) with (58%N :: 32%N :: t) in *.
    destruct (scanstring_basestring k
                (58%N :: 32%N :: encode (S level) v ++ tail) Hk)
      as (r0 & E & Hscan).
    exists r0. split; [exact E|]. split; [exact Hscan|].
    apply IHv; [exact Ht|].
    rewrite E in Hlen. apply (f_equal (@List.length N)) in E.
    rewrite !length_app in *. cbn [List.length] in *.
    rewrite ?length_app in *. lia. }
  destruct r as [|kv' r'].
  - cbn [map join] in *.
    destruct (Hone (newline_indent level ++ 125%N :: rest))
      as (r0 & E & Hscan & Hval); [right; reflexivity|lia|].
    rewrite E. cbn [parse_members]. rewrite head_is_same, Hscan.
    rewrite (skip_ws_nonblank 58), head_is_same by reflexivity.
    change (skip_ws (32%N :: ?t)) with (skip_ws t).
    rewrite (skip_ws_start _ (encode_starts _ _ _ Hv)), Hval.
    rewrite skip_ws_indent, (skip_ws_nonblank 125), head_is_same
      by reflexivity.
    reflexivity.
  - specialize (IH ltac:(discriminate) rest f).
    destruct (member_starts (S level) (code "," ++ newline_indent (S level))
                kv' r' (newline_indent level ++ 125%N :: rest)) as (m & Em).
    change (map (member_text (S level)) ((k, v) :: kv' :: r'))
      with (member_text (S level) (k, v)
            :: map (member_text (S level)) (kv' :: r')) in *.
    rewrite join_cons in * by discriminate.
    set (J := join _ (map (member_text (S level)) (kv' :: r'))) in *.
    rewrite <- !app_assoc in Hf |- *.
    change (code "," ++ ?t) with (44%N :: t) in Hf |- *.
    destruct (Hone (44%N :: newline_indent (S level) ++ J
                    ++ newline_indent level ++ 125%N :: rest))
      as (r0 & E & Hscan & Hval); [left; reflexivity|lia|].
    rewrite E. cbn [parse_members]. rewrite head_is_same, Hscan.
    rewrite (skip_ws_nonblank 58), head_is_same by reflexivity.
    change (skip_ws (32%N :: ?t)) with (skip_ws t).
    rewrite (skip_ws_start _ (encode_starts _ _ _ Hv)), Hval.
    rewrite (skip_ws_nonblank 44) by reflexivity.
    rewrite (head_is_other 125 44) by discriminate.
    rewrite head_is_same, skip_ws_indent, Em.
    rewrite (skip_ws_nonblank 34) by reflexivity. rewrite <- Em.
    rewrite IH; [reflexivity|].
    rewrite E in Hf. apply (f_equal (@List.length N)) in E.
    rewrite !length_app in *. cbn [List.length] in *.
    rewrite ?length_app in *. cbn [List.length] in *. lia.
Qed.

Lemma text_eqb_eq (a b : text) : text_eqb a b = true <-> a = b.
Proof.
  revert b. induction a as [|x a IH]; intros [|y b]; cbn;
    try (split; [discriminate|discriminate]); [tauto|].
  rewrite andb_true_iff, N.eqb_eq, IH. split.
  - intros [-> ->]. reflexivity.
  - intros E. injection E as -> ->. auto.
Qed.

Lemma text_eqb_refl (a : text) : text_eqb a a = true.
Proof. now apply text_eqb_eq. Qed.

Lemma dict_set_fresh (k : text) (v : json) (d : list (text * json)) :
  ~ In k (map fst d) -> dict_set k v d = d ++ [(k, v)].
Proof.
  induction d as [|[k' v'] r IH]; cbn; intros H; [reflexivity|].
  destruct (text_eqb k' k) eqn:E.
  - apply text_eqb_eq in E. exfalso. apply H. now left.
  - rewrite IH; [reflexivity|]. intros HIn. apply H. now right.
Qed.

Lemma dict_of_pairs_acc (kvs acc : list (text * json)) :
  NoDup (map fst (acc ++ kvs)) ->
  fold_left (fun d kv => dict_set (fst kv) (snd kv) d) kvs acc = acc ++ kvs.
Proof.
  revert acc. induction kvs as [|[k v] r IH]; intros acc H; cbn [fold_left].
  - now rewrite List.app_nil_r.
  - cbn [fst snd]. rewrite dict_set_fresh.
    + rewrite IH; rewrite <- app_assoc; [reflexivity|exact H].
    + rewrite map_app in H. cbn in H. apply NoDup_remove_2 in H.
      intros HIn. apply H. apply in_or_app. now left.
Qed.

Lemma dict_of_pairs_distinct (kvs : list (text * json)) :
  NoDup (map fst kvs) -> dict_of_pairs kvs = kvs.
Proof. intros H. unfold dict_of_pairs. now rewrite dict_of_pairs_acc. Qed.

Lemma encode_members (level : nat) (kv : text * json)
    (kvs : list (text * json)) :
  encode level (JObj (kv :: kvs))
  = 123%N :: newline_indent (S level)
    ++ join (code "," ++ newline_indent (S level))
            (map (member_text (S level)) (kv :: kvs))
    ++ newline_indent level ++ [125%N].
Proof. reflexivity. Qed.

Lemma encode_items (level : nat) (x : json) (xs : list json) :
  encode level (JArr (x :: xs))
  = 91%N :: newline_indent (S level)
    ++ join (code "," ++ newline_indent (S level))
            (map (encode (S level)) (x :: xs))
    ++ newline_indent level ++ [93%N].
Proof. reflexivity. Qed.

(** The decoder, given fuel for the text it faces, reads back any regular
    value from its encoding at any nesting level. *)
Lemma scan_once_encoded (v : json) :
  regular v -> forall level, reads_back level v.
Proof.
  induction v as [ |b|z|lexeme|s|xs IH|kvs IH] using json_induction;
    intros Hv level rest fuel Hr Hf;
    (destruct fuel as [|f]; [lia|]).
  - reflexivity.
  - destruct b; reflexivity.
  - now apply scan_once_int.
  - contradiction.
  - cbn [encode regular] in *.
    destruct (scanstring_basestring s rest Hv) as (r & -> & Hscan).
    cbn [scan_once]. change (34 =? 34)%N with true. cbv iota.
    now rewrite Hscan.
  - destruct xs as [|x xs]; [reflexivity|].
    assert (Hall : Forall (fun x => regular x /\ reads_back (S level) x)
                          (x :: xs)).
    { apply regular_items in Hv. rewrite Forall_forall in *.
      intros y Hy. split; [now apply Hv|]. apply IH; auto. }
    pose proof (join_starts (S level) (code "," ++ newline_indent (S level))
                  x xs (newline_indent level ++ 93%N :: rest)
                  (proj1 (Forall_inv Hall))) as Hs.
    rewrite encode_items in *. set (J := join _ _) in *.
    cbn [app] in *. rewrite <- !app_assoc in *. cbn [app] in *.
    assert (Hfuel : (2 * List.length
                           (J ++ newline_indent level ++ 93%N :: rest) + 2
                     <= f)%nat).
    { cbn [List.length] in Hf. rewrite !length_app in *.
      cbn [List.length] in *. lia. }
    cbn [scan_once].
    change (91 =? 34)%N with false. change (91 =? 123)%N with false.
    change (91 =? 91)%N with true. cbv iota.
    rewrite skip_ws_indent, (skip_ws_start _ Hs).
    destruct (J ++ newline_indent level ++ 93%N :: rest) as [|c t] eqn:E;
      [contradiction|].
    destruct Hs as [_ Hs93].
    rewrite (head_is_other 93 c) by exact Hs93. rewrite <- E.
    subst J. rewrite (parse_items_encoded level (x :: xs) Hall);
      [reflexivity|discriminate|rewrite E; exact Hfuel].
  - destruct kvs as [|kv kvs]; [reflexivity|].
    destruct (regular_members _ Hv) as [Hnd Hreg].
    assert (Hall : Forall (fun kv => plain (fst kv) /\ regular (snd kv)
                                     /\ reads_back (S level) (snd kv))
                          (kv :: kvs)).
    { rewrite Forall_forall in *. intros y Hy.
      destruct (Hreg y Hy) as [Hp Hy']. split; [exact Hp|].
      split; [exact Hy'|]. apply (IH y Hy Hy'). }
    destruct (member_starts (S level) (code "," ++ newline_indent (S level))
                kv kvs (newline_indent level ++ 125%N :: rest)) as (m & Em).
    rewrite encode_members in *. set (J := join _ _) in *.
    cbn [app] in *. rewrite <- !app_assoc in *. cbn [app] in *.
    assert (Hfuel : (2 * List.length
                           (J ++ newline_indent level ++ 125%N :: rest) + 2
                     <= f)%nat).
    { cbn [List.length] in Hf. rewrite !length_app in *.
      cbn [List.length] in *. lia. }
    cbn [scan_once].
    change (123 =? 34)%N with false. change (123 =? 123)%N with true.
    cbv iota.
    rewrite skip_ws_indent, Em, (skip_ws_nonblank 34) by reflexivity.
    rewrite (head_is_other 125 34) by discriminate. rewrite <- Em.
    subst J. rewrite (parse_members_encoded level (kv :: kvs) Hall);
      [cbn [map_parsed]; now rewrite dict_of_pairs_distinct|discriminate
      |exact Hfuel].
Qed.

(** * The fuel of the decoder suffices *)

Lemma skip_ws_length (t : text) :
  (List.length (skip_ws t) <= List.length t)%nat.
Proof.
  induction t as [|c r IH]; cbn; [lia|]. destruct (is_ws c); cbn; lia.
Qed.

Lemma head_is_length (c : N) (t r : text) :
  head_is c t = Some r -> List.length t = S (List.length r).
Proof.
  destruct t as [|x t']; cbn; [discriminate|].
  destruct (x =? c)%N; [|discriminate]. now intros [= ->].
Qed.

Lemma starts_with_length (p t r : text) :
  starts_with p t = Some r ->
  List.length t = (List.length p + List.length r)%nat.
Proof.
  revert t. induction p as [|x p IH]; intros [|y t]; cbn;
    try discriminate; try (now intros [= <-]).
  destruct (x =? y)%N; [|discriminate]. intros H. apply IH in H. lia.
Qed.

Lemma hex4_length (t : text) (u : N) (r : text) :
  hex4 t = Some (u, r) -> List.length t = (4 + List.length r)%nat.
Proof.
  destruct t as [|a [|b [|c [|d t']]]]; cbn; try discriminate.
  destruct (hex_val a), (hex_val b), (hex_val c), (hex_val d);
    try discriminate.
  now intros [= _ ->].
Qed.

Lemma low_escape_length (t : text) (u : N) (r : text) :
  low_escape t = Some (u, r) -> List.length t = (6 + List.length r)%nat.
Proof.
  destruct t as [|a [|b t']]; cbn [low_escape]; try discriminate.
  destruct ((a =? 92) && (b =? 117))%N; [|discriminate].
  destruct (hex4 t') as [[u' r']|] eqn:E; [|discriminate].
  destruct (is_low_surrogate u'); [|discriminate].
  intros [= _ ->]. apply hex4_length in E. cbn [List.length]. lia.
Qed.

Lemma map_parsed_inv {A B : Type} (g : A -> B) (p : parsed A) (b : B)
    (r : text) :
  map_parsed g p = Parsed b r -> exists a, p = Parsed a r /\ b = g a.
Proof. destruct p; cbn; try discriminate. intros [= <- <-]. eauto. Qed.

Lemma map_parsed_fuel {A B : Type} (g : A -> B) (p : parsed A) :
  p <> OutOfFuel -> map_parsed g p <> OutOfFuel.
Proof. destruct p; cbn; congruence. Qed.

Lemma scanstring_progress (f : nat) (t s r : text) :
  scanstring f t = Parsed s r -> (List.length r < List.length t)%nat.
Proof.
  revert t s. induction f as [|f IH]; intros t s; cbn [scanstring];
    [discriminate|].
  destruct t as [|c t1]; [discriminate|].
  destruct (c =? 34)%N; [intros [= _ ->]; cbn; lia|].
  destruct (c =? 92)%N.
  - destruct t1 as [|e t2]; [discriminate|].
    destruct (e =? 117)%N.
    + destruct (hex4 t2) as [[u t3]|] eqn:Eh; [|discriminate].
      apply hex4_length in Eh.
      destruct (if is_high_surrogate u then low_escape t3 else None)
        as [[u2 t4]|] eqn:El.
      * destruct (is_high_surrogate u); [|discriminate].
        apply low_escape_length in El.
        intros H. apply map_parsed_inv in H as (a & H & _).
        apply IH in H. cbn [List.length]. lia.
      * intros H. apply map_parsed_inv in H as (a & H & _).
        apply IH in H. cbn [List.length]. lia.
    + destruct (simple_escape e); [|discriminate].
      intros H. apply map_parsed_inv in H as (a & H & _).
      apply IH in H. cbn [List.length]. lia.
  - destruct (c <=? 31)%N; [discriminate|].
    intros H. apply map_parsed_inv in H as (a & H & _).
    apply IH in H. cbn [List.length]. lia.
Qed.

Lemma scanstring_fuel (f : nat) (t : text) :
  (List.length t < f)%nat -> scanstring f t <> OutOfFuel.
Proof.
  revert t. induction f as [|f IH]; intros t Hf; [lia|]. cbn [scanstring].
  destruct t as [|c t1]; [discriminate|]. cbn [List.length] in Hf.
  destruct (c =? 34)%N; [discriminate|].
  destruct (c =? 92)%N.
  - destruct t1 as [|e t2]; [discriminate|]. cbn [List.length] in Hf.
    destruct (e =? 117)%N.
    + destruct (hex4 t2) as [[u t3]|] eqn:Eh; [|discriminate].
      apply hex4_length in Eh.
      destruct (if is_high_surrogate u then low_escape t3 else None)
        as [[u2 t4]|] eqn:El.
      * destruct (is_high_surrogate u); [|discriminate].
        apply low_escape_length in El.
        apply map_parsed_fuel, IH. lia.
      * apply map_parsed_fuel, IH. lia.
    + destruct (simple_escape e); [|discriminate].
      apply map_parsed_fuel, IH. lia.
  - destruct (c <=? 31)%N; [discriminate|].
    apply map_parsed_fuel, IH. lia.
Qed.

Lemma span_digits_length (t d r : text) :
  span_digits t = (d, r) ->
  List.length t = (List.length d + List.length r)%nat.
Proof.
  revert d r. induction t as [|c t IH]; intros d r; cbn [span_digits].
  - now intros [= <- <-].
  - destruct (is_digit c).
    + destruct (span_digits t) as [d' r'] eqn:E. intros [= <- <-].
      specialize (IH d' r' eq_refl). cbn [List.length]. lia.
    + now intros [= <- <-].
Qed.

Lemma int_part_progress (t ds r : text) :
  int_part t = Some (ds, r) -> (List.length r < List.length t)%nat.
Proof.
  destruct t as [|c t']; cbn [int_part]; [discriminate|].
  destruct (c =? 48)%N; [intros [= _ <-]; cbn; lia|].
  destruct (is_digit c); [|discriminate].
  destruct (span_digits t') as [d r'] eqn:E. intros [= _ <-].
  apply span_digits_length in E. cbn [List.length]. lia.
Qed.

Lemma frac_part_length (t fr r : text) :
  frac_part t = (fr, r) -> (List.length r <= List.length t)%nat.
Proof.
  destruct t as [|p [|d t']]; cbn [frac_part];
    try (intros [= _ <-]; cbn; lia).
  destruct ((p =? 46)%N && is_digit d); [|intros [= _ <-]; cbn; lia].
  destruct (span_digits t') as [ds r'] eqn:E. intros [= _ <-].
  apply span_digits_length in E. cbn [List.length]. lia.
Qed.

Lemma exp_part_length (t ex r : text) :
  exp_part t = (ex, r) -> (List.length r <= List.length t)%nat.
Proof.
  destruct t as [|e t']; cbn [exp_part]; [intros [= _ <-]; cbn; lia|].
  destruct ((e =? 101) || (e =? 69))%N; [|intros [= _ <-]; cbn; lia].
  assert (Hsign : forall sg r1,
            match t' with
            | s :: r' =>
                if ((s =? 45) || (s =? 43))%N then ([s], r') else ([], t')
            | [] => ([], t')
            end = (sg, r1) -> (List.length r1 <= List.length t')%nat).
  { intros sg r1. destruct t' as [|s r']; [intros [= _ <-]; lia|].
    destruct ((s =? 45) || (s =? 43))%N; intros [= _ <-]; cbn; lia. }
  destruct (match t' with [] => _ | _ :: _ => _ end) as [sg r1].
  specialize (Hsign _ _ eq_refl).
  destruct (span_digits r1) as [ds r2] eqn:Ed.
  apply span_digits_length in Ed.
  destruct ds; intros [= _ <-]; cbn [List.length] in *; lia.
Qed.

Lemma match_number_progress (t : text) (v : json) (r : text) :
  match_number t = Some (v, r) -> (List.length r < List.length t)%nat.
Proof.
  unfold match_number.
  assert (Hneg : forall neg t1,
            match t with
            | c :: r0 => if (c =? 45)%N then (true, r0) else (false, t)
            | [] => (false, t)
            end = (neg, t1) -> (List.length t1 <= List.length t)%nat).
  { intros neg t1. destruct t as [|c r0]; [intros [= _ <-]; lia|].
    destruct (c =? 45)%N; intros [= _ <-]; cbn; lia. }
  destruct (match t with [] => _ | _ :: _ => _ end) as [neg t1].
  specialize (Hneg _ _ eq_refl).
  destruct (int_part t1) as [[ds r1]|] eqn:Ei; [|discriminate].
  apply int_part_progress in Ei.
  destruct (frac_part r1) as [fr r2] eqn:Ef. apply frac_part_length in Ef.
  destruct (exp_part r2) as [ex r3] eqn:Ee. apply exp_part_length in Ee.
  destruct fr, ex; intros [= _ <-]; lia.
Qed.

Lemma constant_progress (t : text) (v : json) (r : text) :
  constant t = Some (v, r) -> (List.length r < List.length t)%nat.
Proof.
  unfold constant.
  repeat match goal with
         | |- context [starts_with ?p t] =>
             let E := fresh "E" in
             destruct (starts_with p t) eqn:E;
             [apply starts_with_length in E; cbn in E;
              intros [= _ <-]; lia|]
         end.
  discriminate.
Qed.

Lemma scan_progress (f : nat) :
  (forall t v r,
     scan_once f t = Parsed v r -> (List.length r < List.length t)%nat)
  /\ (forall t vs r,
        parse_items f t = Parsed vs r -> (List.length r < List.length t)%nat)
  /\ (forall t ps r,
        parse_members f t = Parsed ps r ->
        (List.length r < List.length t)%nat).
Proof.
  induction f as [|f (IHv & IHi & IHm)];
    [repeat split; intros; discriminate|].
  split; [|split].
  - intros t v r. cbn [scan_once].
    destruct t as [|c t1]; [discriminate|].
    pose proof (skip_ws_length t1) as Hws.
    destruct (c =? 34)%N.
    { intros H. apply map_parsed_inv in H as (s & H & _).
      apply scanstring_progress in H. cbn [List.length]. lia. }
    destruct (c =? 123)%N.
    { destruct (head_is 125 (skip_ws t1)) as [r'|] eqn:Eh.
      - apply head_is_length in Eh. intros [= _ <-]. cbn [List.length]. lia.
      - intros H. apply map_parsed_inv in H as (ps & H & _).
        apply IHm in H. cbn [List.length]. lia. }
    destruct (c =? 91)%N.
    { destruct (head_is 93 (skip_ws t1)) as [r'|] eqn:Eh.
      - apply head_is_length in Eh. intros [= _ <-]. cbn [List.length]. lia.
      - intros H. apply map_parsed_inv in H as (vs & H & _).
        apply IHi in H. cbn [List.length]. lia. }
    destruct (constant (c :: t1)) as [[v' r']|] eqn:Ec.
    { apply constant_progress in Ec. now intros [= _ <-]. }
    destruct (match_number (c :: t1)) as [[v' r']|] eqn:Em; [|discriminate].
    apply match_number_progress in Em. now intros [= _ <-].
  - intros t vs r. cbn [parse_items].
    destruct (scan_once f t) as [v r0| |] eqn:Ev; try discriminate.
    apply IHv in Ev. pose proof (skip_ws_length r0) as Hws.
    destruct (head_is 93 (skip_ws r0)) as [r2|] eqn:E93.
    { apply head_is_length in E93. intros [= _ <-]. lia. }
    destruct (head_is 44 (skip_ws r0)) as [r2|] eqn:E44; [|discriminate].
    apply head_is_length in E44. pose proof (skip_ws_length r2) as Hws2.
    intros H. apply map_parsed_inv in H as (vs' & H & _).
    apply IHi in H. lia.
  - intros t ps r. cbn [parse_members].
    destruct (head_is 34 t) as [r0|] eqn:E34; [|discriminate].
    apply head_is_length in E34.
    destruct (scanstring (S (List.length r0)) r0) as [k r1| |] eqn:Es;
      try discriminate.
    apply scanstring_progress in Es. pose proof (skip_ws_length r1) as Hws1.
    destruct (head_is 58 (skip_ws r1)) as [r2|] eqn:E58; [|discriminate].
    apply head_is_length in E58. pose proof (skip_ws_length r2) as Hws2.
    destruct (scan_once f (skip_ws r2)) as [v r3| |] eqn:Ev; try discriminate.
    apply IHv in Ev. pose proof (skip_ws_length r3) as Hws3.
    destruct (head_is 125 (skip_ws r3)) as [r5|] eqn:E125.
    { apply head_is_length in E125. intros [= _ <-]. lia. }
    destruct (head_is 44 (skip_ws r3)) as [r5|] eqn:E44; [|discriminate].
    apply head_is_length in E44. pose proof (skip_ws_length r5) as Hws5.
    intros H. apply map_parsed_inv in H as (ps' & H & _).
    apply IHm in H. lia.
Qed.

Lemma scan_fuel (f : nat) :
  (forall t, (2 * List.length t + 1 <= f)%nat -> scan_once f t <> OutOfFuel)
  /\ (forall t, (2 * List.length t + 2 <= f)%nat ->
                parse_items f t <> OutOfFuel)
  /\ (forall t, (2 * List.length t + 2 <= f)%nat ->
                parse_members f t <> OutOfFuel).
Proof.
  induction f as [|f (IHv & IHi & IHm)]; [repeat split; intros; lia|].
  destruct (scan_progress f) as (Pv & _ & _).
  split; [|split].
  - intros t Hf. cbn [scan_once].
    destruct t as [|c t1]; [discriminate|]. cbn [List.length] in Hf.
    pose proof (skip_ws_length t1) as Hws.
    destruct (c =? 34)%N.
    { apply map_parsed_fuel, scanstring_fuel. lia. }
    destruct (c =? 123)%N.
    { destruct (head_is 125 (skip_ws t1)); [discriminate|].
      apply map_parsed_fuel, IHm. lia. }
    destruct (c =? 91)%N.
    { destruct (head_is 93 (skip_ws t1)); [discriminate|].
      apply map_parsed_fuel, IHi. lia. }
    destruct (constant (c :: t1)) as [[v' r']|]; [discriminate|].
    destruct (match_number (c :: t1)) as [[v' r']|]; discriminate.
  - intros t Hf. cbn [parse_items].
    pose proof (IHv t ltac:(lia)) as Hv.
    destruct (scan_once f t) as [v r0| |] eqn:Ev;
      [|discriminate|contradiction].
    apply Pv in Ev. pose proof (skip_ws_length r0) as Hws.
    destruct (head_is 93 (skip_ws r0)); [discriminate|].
    destruct (head_is 44 (skip_ws r0)) as [r2|] eqn:E44; [|discriminate].
    apply head_is_length in E44. pose proof (skip_ws_length r2) as Hws2.
    apply map_parsed_fuel, IHi. lia.
  - intros t Hf. cbn [parse_members].
    destruct (head_is 34 t) as [r0|] eqn:E34; [|discriminate].
    apply head_is_length in E34.
    pose proof (scanstring_fuel (S (List.length r0)) r0 ltac:(lia)) as Hs.
    destruct (scanstring (S (List.length r0)) r0) as [k r1| |] eqn:Es;
      [|discriminate|contradiction].
    apply scanstring_progress in Es. pose proof (skip_ws_length r1) as Hws1.
    destruct (head_is 58 (skip_ws r1)) as [r2|] eqn:E58; [|discriminate].
    apply head_is_length in E58. pose proof (skip_ws_length r2) as Hws2.
    pose proof (IHv (skip_ws r2) ltac:(lia)) as Hv.
    destruct (scan_once f (skip_ws r2)) as [v r3| |] eqn:Ev;
      [|discriminate|contradiction].
    apply Pv in Ev. pose proof (skip_ws_length r3) as Hws3.
    destruct (head_is 125 (skip_ws r3)); [discriminate|].
    destruct (head_is 44 (skip_ws r3)) as [r5|] eqn:E44; [|discriminate].
    apply head_is_length in E44. pose proof (skip_ws_length r5) as Hws5.
    apply map_parsed_fuel, IHm. lia.
Qed.

(** The decoder never runs out of the fuel [decode] gives it: [None] from
    [json_loads] is a [JSONDecodeError]. *)
Lemma decode_has_fuel (t : text) : decode t <> OutOfFuel.
Proof.
  unfold decode.
  destruct (scan_fuel (2 * List.length t + 1)) as (Hv & _ & _).
  pose proof (skip_ws_length t) as Hws.
  specialize (Hv (skip_ws t) ltac:(lia)).
  destruct (scan_once _ (skip_ws t)) as [v r| |];
    [destruct (skip_ws r)| |]; congruence.
Qed.

Lemma json_loads_error (t : text) :
  json_loads t = None <-> decode t = Invalid.
Proof.
  unfold json_loads. pose proof (decode_has_fuel t) as H.
  destruct (decode t); split; congruence.
Qed.

(** [json.loads(json.dumps(v, indent=4)) == v] on a regular value. *)
Lemma json_loads_dumps (v : json) :
  regular v -> json_loads (json_dumps v) = Some v.
Proof.
  intros Hv. unfold json_loads, decode, json_dumps.
  pose proof (encode_starts 0 v [] Hv) as Hs.
  rewrite List.app_nil_r in Hs. rewrite (skip_ws_start _ Hs).
  pose proof (scan_once_encoded v Hv 0 [] (2 * List.length (encode 0 v) + 1)
                I) as H.
  rewrite List.app_nil_r in H. rewrite H by lia. reflexivity.
Qed.

(** * The persisted file *)

(** ** Store states as documents *)

Lemma code_plain (s : string) : plain (code s).
Proof.
  unfold plain, code. induction s as [|a s IH]; cbn; constructor; [|exact IH].
  pose proof (N_ascii_bounded a). lia.
Qed.

Lemma uncode_code (s : string) : uncode (code s) = Some s.
Proof.
  unfold code. induction s as [|a s IH]; cbn [list_ascii_of_string map uncode];
    [reflexivity|].
  fold (code s) in *. rewrite IH.
  pose proof (N_ascii_bounded a) as Hb. apply N.ltb_lt in Hb. rewrite Hb.
  now rewrite ascii_N_embedding.
Qed.

Ltac distinct_keys :=
  repeat (constructor; [cbn; intuition discriminate|]); constructor.

Lemma task_to_json_regular (t : Task.t) : regular (task_to_json t).
Proof.
  unfold task_to_json. cbn [regular map fst snd]. split; [distinct_keys|].
  repeat split; try apply code_plain.
  destruct (Task.updatedAt t); cbn [regular]; [apply code_plain|exact I].
Qed.

Lemma to_json_regular (d : Data) : regular (to_json d).
Proof.
  unfold to_json. cbn [regular map fst snd]. split; [distinct_keys|].
  repeat split; try apply code_plain.
  induction (tasks d) as [|t r IH]; cbn [map]; [exact I|].
  split; [apply task_to_json_regular|exact IH].
Qed.

Lemma task_of_json_to_json (t : Task.t) :
  task_of_json (task_to_json t) = Some t.
Proof.
  destruct t as [i d s c u]. unfold task_to_json, task_of_json.
  cbn [Task.id Task.description Task.status Task.createdAt Task.updatedAt].
  rewrite !text_eqb_refl. cbn [andb]. rewrite !uncode_code.
  destruct u as [x|]; [now rewrite uncode_code|reflexivity].
Qed.

(** The document of a store state stands for that state. *)
Lemma of_json_to_json (d : Data) : of_json (to_json d) = Some d.
Proof.
  destruct d as [ts c]. unfold to_json, of_json. cbn [tasks count].
  rewrite !text_eqb_refl. cbn [andb].
  assert (H : tasks_of_json (map task_to_json ts) = Some ts).
  { induction ts as [|t r IH]; cbn [map tasks_of_json]; [reflexivity|].
    now rewrite task_of_json_to_json, IH. }
  now rewrite H.
Qed.

Lemma to_json_has_keys (d : Data) :
  py_in (code "tasks") (to_json d) = Some true
  /\ py_in (code "count") (to_json d) = Some true.
Proof. split; reflexivity. Qed.

(** ** The constructor, one case for each way through it *)

Lemma json_loads_empty : json_loads [] = None.
Proof. reflexivity. Qed.

Lemma init_absent (dk : Disk) :
  content dk = None -> init dk = Started default_data (dump default_data dk).
Proof. intros H. unfold init. now rewrite H. Qed.

Lemma init_empty (dk : Disk) :
  content dk = Some [] -> init dk = Started default_data (dump default_data dk).
Proof. intros H. unfold init. now rewrite H. Qed.

Lemma init_undecodable (dk : Disk) (t : text) :
  content dk = Some t ->
  json_loads t = None ->
  init dk = Started default_data (dump default_data dk).
Proof.
  intros H Hl. unfold init. rewrite H. destruct t; [reflexivity|].
  now rewrite Hl.
Qed.

Lemma init_loaded (dk : Disk) (t : text) (v : json) :
  content dk = Some t ->
  json_loads t = Some v ->
  py_in (code "tasks") v = Some true ->
  py_in (code "count") v = Some true ->
  init dk = Started v dk.
Proof.
  intros H Hl Ht Hc. unfold init. rewrite H.
  destruct t; [discriminate Hl|]. now rewrite Hl, Ht, Hc.
Qed.

(** A document that lacks one of the two keys: the default state is used,
    and the file is left as it is. *)
Lemma init_missing_key (dk : Disk) (t : text) (v : json) :
  content dk = Some t ->
  json_loads t = Some v ->
  py_in (code "tasks") v = Some false
  \/ (py_in (code "tasks") v = Some true
      /\ py_in (code "count") v = Some false) ->
  init dk = Started default_data dk.
Proof.
  intros H Hl Hk. unfold init. rewrite H.
  destruct t; [discriminate Hl|]. rewrite Hl.
  destruct Hk as [->|[-> ->]]; reflexivity.
Qed.

(** A document that is a number, a boolean or [null]: the key test raises a
    [TypeError], which nothing catches. *)
Lemma init_not_a_container (dk : Disk) (t : text) (v : json) :
  content dk = Some t ->
  json_loads t = Some v ->
  py_in (code "tasks") v = None ->
  init dk = Crashed.
Proof.
  intros H Hl Hk. unfold init. rewrite H.
  destruct t; [discriminate Hl|]. now rewrite Hl, Hk.
Qed.

Lemma init_number_crashes :
  json_loads (code "5") = Some (JInt 5)
  /\ init {| content := Some (code "5"); writes := 0 |} = Crashed.
Proof. split; reflexivity. Qed.

(** C1. The constructor on a file that holds the document [{}], which
    parses and has neither a [tasks] nor a [count] key: the store starts
    from the empty default state, but the default is not persisted; the file
    still holds [{}] and has not been written. *)
Theorem init_missing_fields_not_persisted :
  json_loads (code "{}") = Some (JObj [])
  /\ py_in (code "tasks") (JObj []) = Some false
  /\ init {| content := Some (code "{}"); writes := 0 |}
     = Started default_data {| content := Some (code "{}"); writes := 0 |}
  /\ Some (code "{}") <> Some (json_dumps default_data).
Proof. repeat split. discriminate. Qed.

(** A new store: the constructor on an absent file leaves [fresh_world]. *)
Lemma init_on_absent_file :
  init {| content := None; writes := 0 |}
  = Started (to_json (data fresh_world)) (disk fresh_world).
Proof. reflexivity. Qed.

(** The other three ways into the default state do persist it. *)
Lemma init_falls_back_and_persists (dk : Disk) :
  content dk = None
  \/ content dk = Some []
  \/ (exists t, content dk = Some t /\ json_loads t = None) ->
  init dk = Started default_data
              {| content := Some (json_dumps default_data);
                 writes := S (writes dk) |}
  /\ of_json default_data = Some empty_data.
Proof.
  intros H. split; [|reflexivity].
  destruct H as [H|[H|(t & H & Hl)]].
  - now apply init_absent.
  - now apply init_empty.
  - now apply (init_undecodable dk t).
Qed.

(** ** Saving, then loading *)

(** C8. Whatever the state of the store, once [_save_data] has written it,
    the constructor run on the file loads the very document that was
    written, without touching the file, and that document stands for the
    state that was saved: same tasks in the same order, same counter. *)
Theorem save_then_load (w : World) :
  init (disk (fst (_save_data w)))
  = Started (to_json (data w)) (disk (fst (_save_data w)))
  /\ of_json (to_json (data w)) = Some (data w)
  /\ data (fst (_save_data w)) = data w.
Proof.
  split; [|split; [apply of_json_to_json|reflexivity]].
  unfold _save_data. cbn [fst disk].
  destruct (to_json_has_keys (data w)) as [Ht Hc].
  apply (init_loaded _ (json_dumps (to_json (data w)))); auto.
  apply json_loads_dumps, to_json_regular.
Qed.

(** * Further properties of the store *)

(** ** What an operation does to memory and file *)

Lemma data_eta (d : Data) : {| tasks := tasks d; count := count d |} = d.
Proof. destruct d; reflexivity. Qed.

Lemma update_first_not_found (n : Z) (description : string)
    (status : option string) (now : string) (ts ts' : list Task.t) :
  update_first n description status now ts = (ts', false) -> ts' = ts.
Proof.
  revert ts'. induction ts as [|task r IH]; intros ts'; cbn [update_first].
  - now intros [= <-].
  - destruct (Task.id task =? n)%Z; [discriminate|].
    destruct (update_first n description status now r) as [r' found].
    intros [= <- ->]. now rewrite (IH r' eq_refl).
Qed.

(** The three ways an operation can end: it raises and memory and file are
    as before; it returns from a mutation and the file holds the new state;
    it returns from a listing and memory and file are as before. *)
Lemma perform_effect (fmt : string -> option string) (o : operation)
    (w : World) :
  let w' := fst (perform fmt o w) in
  match snd (perform fmt o w) with
  | Raised _ => data w' = data w /\ disk w' = disk w
  | Returned _ =>
      if mutates o
      then disk w' = dump (to_json (data w')) (disk w)
      else data w' = data w /\ disk w' = disk w
  end.
Proof.
  destruct o as [description now|task_id description status now|task_id|f];
    cbn [perform mutates]; unfold bind.
  - destruct (all_space description) eqn:H.
    + rewrite (new_task_blank _ _ _ H). split; reflexivity.
    + rewrite (new_task_valid _ _ _ H). reflexivity.
  - rewrite update_task_cases.
    destruct (int_of_arg task_id) as [n|]; [|split; reflexivity].
    destruct (status_accepted status); [|split; reflexivity].
    destruct (update_first n description status now (tasks (data w)))
      as [ts [|]] eqn:E; [reflexivity|].
    apply update_first_not_found in E. subst ts. cbn.
    now rewrite data_eta.
  - rewrite delete_task_cases.
    destruct (int_of_arg task_id) as [n|]; [|split; reflexivity].
    cbv zeta.
    destruct (List.length (without n (tasks (data w)))
              =? List.length (tasks (data w)))%nat eqn:E; [|reflexivity].
    apply Nat.eqb_eq, filter_same_length in E.
    fold (without n (tasks (data w))) in E. cbn. rewrite E.
    now rewrite data_eta.
  - destruct (list_tasks_frame fmt f w) as [Hd Hk].
    destruct (list_tasks fmt f w) as [w' [u|e]]; cbn in *; auto.
Qed.

Lemma perform_synced (fmt : string -> option string) (o : operation)
    (w : World) :
  synced w -> synced (fst (perform fmt o w)).
Proof.
  unfold synced. intros H. pose proof (perform_effect fmt o w) as He.
  cbv zeta in He.
  destruct (snd (perform fmt o w)); [destruct (mutates o)|].
  - now rewrite He.
  - destruct He as [-> ->]. exact H.
  - destruct He as [-> ->]. exact H.
Qed.

Lemma run_synced (fmt : string -> option string) (ops : list operation)
    (w : World) :
  synced w -> synced (fst (run fmt ops w)).
Proof.
  revert w. induction ops as [|o r IH]; intros w H; cbn [run]; [exact H|].
  pose proof (perform_synced fmt o w H) as H1.
  destruct (perform fmt o w) as [w1 res]. cbn [fst] in H1.
  specialize (IH w1 H1). destruct (run fmt r w1) as [w2 rest]. exact IH.
Qed.

(** X1. The file follows the memory: if the file holds the state of the
    store before a run of operations, it holds the state of the store after
    it, whichever operations returned or raised on the way. *)
Theorem run_keeps_file_in_sync (fmt : string -> option string)
    (ops : list operation) (w : World) :
  synced w -> synced (fst (run fmt ops w)).
Proof. apply run_synced. Qed.

Lemma run_keeps_file_in_sync_witness :
  synced fresh_world
  /\ synced (fst (run isoformat_minutes
                    [Create "Buy milk" "2026-01-02T03:04:05";
                     Delete (IdStr "7"); List "done"] fresh_world)).
Proof.
  assert (H : synced fresh_world) by reflexivity.
  split; [exact H|].
  exact (run_keeps_file_in_sync isoformat_minutes
           [Create "Buy milk" "2026-01-02T03:04:05";
            Delete (IdStr "7"); List "done"] fresh_world H).
Defined.

Lemma init_synced (w : World) :
  synced w -> init (disk w) = Started (to_json (data w)) (disk w).
Proof.
  intros H. destruct (to_json_has_keys (data w)) as [Ht Hc].
  apply (init_loaded _ (json_dumps (to_json (data w)))); auto.
  apply json_loads_dumps, to_json_regular.
Qed.

(** X2. A restart loses nothing: after any run of operations on a new
    store, the constructor run on the file loads the document of the very
    state the store has in memory, tasks and counter, and leaves the file
    as it is. *)
Theorem restart_after_run (fmt : string -> option string)
    (ops : list operation) :
  init (disk (fst (run fmt ops fresh_world)))
  = Started (to_json (data (fst (run fmt ops fresh_world))))
            (disk (fst (run fmt ops fresh_world)))
  /\ of_json (to_json (data (fst (run fmt ops fresh_world))))
     = Some (data (fst (run fmt ops fresh_world))).
Proof.
  split; [|apply of_json_to_json].
  apply init_synced, run_synced. reflexivity.
Qed.

(** X3. An operation that raises changes nothing: tasks, counter, file
    content and number of writes are what they were, whatever the
    operation and whatever the error. *)
Theorem failed_operation_changes_nothing (fmt : string -> option string)
    (o : operation) (w : World) (e : error) :
  snd (perform fmt o w) = Raised e ->
  data (fst (perform fmt o w)) = data w
  /\ content (disk (fst (perform fmt o w))) = content (disk w)
  /\ writes (disk (fst (perform fmt o w))) = writes (disk w).
Proof.
  intros H. pose proof (perform_effect fmt o w) as He. cbv zeta in He.
  rewrite H in He. destruct He as [Hd Hk]. rewrite Hk. auto.
Qed.

Lemma failed_operation_changes_nothing_witness :
  snd (perform isoformat_minutes (Delete (IdStr "7")) one_task_world)
  = Raised (TaskNotFound 7)
  /\ data (fst (perform isoformat_minutes (Delete (IdStr "7"))
                  one_task_world)) = data one_task_world
  /\ writes (disk (fst (perform isoformat_minutes (Delete (IdStr "7"))
                         one_task_world))) = writes (disk one_task_world).
Proof.
  split; [reflexivity|].
  destruct (failed_operation_changes_nothing isoformat_minutes
              (Delete (IdStr "7")) one_task_world (TaskNotFound 7) eq_refl)
    as (Hd & _ & Hw).
  split; [exact Hd|exact Hw].
Defined.

(** X4. The file is written once by each creation, update or deletion that
    returns, and with the state the store then has in memory; it is not
    written by a listing, nor by an operation that raises. *)
Theorem operation_writes_once (fmt : string -> option string)
    (o : operation) (w : World) :
  writes (disk (fst (perform fmt o w)))
  = (writes (disk w)
     + match snd (perform fmt o w) with
       | Returned _ => if mutates o then 1 else 0
       | Raised _ => 0
       end)%nat
  /\ (writes (disk (fst (perform fmt o w))) <> writes (disk w) ->
      content (disk (fst (perform fmt o w)))
      = Some (json_dumps (to_json (data (fst (perform fmt o w)))))).
Proof.
  pose proof (perform_effect fmt o w) as He. cbv zeta in He.
  destruct (snd (perform fmt o w)); [destruct (mutates o)|].
  - rewrite He. cbn [dump writes content]. split; [lia|reflexivity].
  - destruct He as [_ ->]. split; [lia|]. intros H. now contradiction H.
  - destruct He as [_ ->]. split; [lia|]. intros H. now contradiction H.
Qed.

(** ** What an operation leaves alone *)

Lemma without_update_first (n : Z) (description : string)
    (status : option string) (now : string) (ts : list Task.t) :
  without n (fst (update_first n description status now ts)) = without n ts.
Proof.
  unfold without.
  induction ts as [|task r IH]; cbn [update_first]; [reflexivity|].
  destruct (Z.eqb_spec (Task.id task) n) as [E|E].
  - cbn [fst filter]. rewrite apply_update_id.
    apply Z.eqb_eq in E. now rewrite E.
  - destruct (update_first n description status now r) as [r' found].
    cbn [fst filter] in *. apply Z.eqb_neq in E. now rewrite E, IH.
Qed.

Lemma without_twice (n : Z) (ts : list Task.t) :
  without n (without n ts) = without n ts.
Proof. apply without_absent, without_removes. Qed.

(** X5. No operation disturbs a task it is not aimed at.  An update or a
    deletion aimed at an identifier leaves the tasks with any other
    identifier as they were, in the same order; a creation only appends, at
    most one task; a listing, and an update or deletion whose identifier is
    no integer, leave the tasks as they were.  Only a creation moves the
    counter. *)
Theorem other_tasks_are_untouched (fmt : string -> option string)
    (o : operation) (w : World) :
  let d := data w in
  let d' := data (fst (perform fmt o w)) in
  match o with
  | Create _ _ =>
      exists added, tasks d' = tasks d ++ added
                    /\ (List.length added <= 1)%nat
                    /\ count d' = (count d + Z.of_nat (List.length added))%Z
  | Update _ _ _ _ | Delete _ =>
      count d' = count d
      /\ match target o with
         | Some n => without n (tasks d') = without n (tasks d)
         | None => tasks d' = tasks d
         end
  | List _ => d' = d
  end.
Proof.
  destruct o as [description now|task_id description status now|task_id|f];
    cbn [perform target]; unfold bind; cbv beta iota zeta.
  - destruct (all_space description) eqn:H.
    + rewrite (new_task_blank _ _ _ H). exists []. cbn [fst List.length].
      rewrite List.app_nil_r. split; [reflexivity|]. split; [lia|].
      cbn. lia.
    + rewrite (new_task_valid _ _ _ H). eexists [_].
      cbn [fst data tasks count List.length].
      split; [reflexivity|]. split; [lia|]. cbn. lia.
  - rewrite update_task_cases.
    destruct (int_of_arg task_id) as [n|]; [|split; reflexivity].
    destruct (status_accepted status);
      [|split; [reflexivity|reflexivity]].
    pose proof (without_update_first n description status now
                  (tasks (data w))) as Hw.
    destruct (update_first n description status now (tasks (data w)))
      as [ts [|]]; cbn in *; split; auto.
  - rewrite delete_task_cases.
    destruct (int_of_arg task_id) as [n|]; [|split; reflexivity].
    cbv zeta.
    destruct (List.length (without n (tasks (data w)))
              =? List.length (tasks (data w)))%nat;
      cbn [fst data tasks count];
      (split; [reflexivity|apply without_twice]).
  - destruct (list_tasks_frame fmt f w) as [Hd _].
    destruct (list_tasks fmt f w) as [w' [u|e]]; exact Hd.
Qed.

Lemma update_first_fields (n : Z) (description : string)
    (status : option string) (now : string) (ts : list Task.t) :
  let ts' := fst (update_first n description status now ts) in
  map Task.createdAt ts' = map Task.createdAt ts
  /\ (truthy description = false ->
      map Task.description ts' = map Task.description ts)
  /\ (provided status = false -> map Task.status ts' = map Task.status ts).
Proof.
  cbv zeta. induction ts as [|task r (IHc & IHd & IHs)];
    cbn [update_first]; [repeat split|].
  destruct (Task.id task =? n)%Z.
  - cbn [fst map]. unfold apply_update. repeat split.
    + destruct (truthy description), (provided status); reflexivity.
    + intros ->. destruct (provided status); reflexivity.
    + intros ->. destruct (truthy description); reflexivity.
  - destruct (update_first n description status now r) as [r' found].
    cbn [fst map] in *. repeat split.
    + now rewrite IHc.
    + intros H. now rewrite (IHd H).
    + intros H. now rewrite (IHs H).
Qed.

(** X6. An update that returns changes no identifier, no creation time, not
    the number or the order of the tasks and not the counter.  With an empty
    description it changes no description; with an absent or empty status
    it changes no status: such a call only sets [updatedAt]. *)
Theorem update_keeps_identity (task_id : id_arg) (description : string)
    (status : option string) (now : string) (w w' : World) :
  update_task task_id description status now w = (w', Returned tt) ->
  map Task.id (tasks (data w')) = map Task.id (tasks (data w))
  /\ map Task.createdAt (tasks (data w'))
     = map Task.createdAt (tasks (data w))
  /\ count (data w') = count (data w)
  /\ (truthy description = false ->
      map Task.description (tasks (data w'))
      = map Task.description (tasks (data w)))
  /\ (provided status = false ->
      map Task.status (tasks (data w')) = map Task.status (tasks (data w))).
Proof.
  rewrite update_task_cases.
  destruct (int_of_arg task_id) as [n|]; [|discriminate].
  destruct (status_accepted status); [|discriminate].
  pose proof (update_first_ids n description status now (tasks (data w)))
    as Hid.
  destruct (update_first_fields n description status now (tasks (data w)))
    as (Hc & Hd & Hs).
  destruct (update_first n description status now (tasks (data w)))
    as [ts [|]]; [|discriminate].
  intros [= <-]. cbn in *. auto.
Qed.

Lemma update_keeps_identity_witness :
  update_task (IdStr "1") EmptyString None "2026-01-02T04:00:00"
              one_task_world
  = (fst (update_task (IdStr "1") EmptyString None "2026-01-02T04:00:00"
                      one_task_world), Returned tt)
  /\ map Task.description
       (tasks (data (fst (update_task (IdStr "1") EmptyString None
                            "2026-01-02T04:00:00" one_task_world))))
     = map Task.description (tasks (data one_task_world)).
Proof.
  split; [reflexivity|].
  exact (proj1 (proj2 (proj2 (proj2
    (update_keeps_identity (IdStr "1") EmptyString None
       "2026-01-02T04:00:00" one_task_world
       (fst (update_task (IdStr "1") EmptyString None "2026-01-02T04:00:00"
                         one_task_world)) eq_refl)))) eq_refl).
Defined.

(** * The table of [list_tasks] *)

Lemma selected_nonempty (status_filter : string) (ts : list Task.t) :
  selected status_filter ts <> [] -> ts <> [].
Proof.
  unfold selected. intros H ->. apply H.
  destruct (truthy status_filter); reflexivity.
Qed.

Lemma list_tasks_selected (fmt : string -> option string)
    (status_filter : string) (w : World) :
  selected status_filter (tasks (data w)) <> [] ->
  list_tasks fmt status_filter w
  = print_table fmt (selected status_filter (tasks (data w))) w.
Proof.
  intros H. pose proof (selected_nonempty _ _ H) as Hne.
  unfold list_tasks, bind, get_data, selected in *.
  destruct (tasks (data w)) as [|t0 r0]; [contradiction|].
  destruct (truthy status_filter); [|reflexivity].
  destruct (filter _ (t0 :: r0)); [contradiction|reflexivity].
Qed.

(** The rows are printed one by one up to the first timestamp that does
    not render. *)
Lemma print_rows_upto (fmt : string -> option string)
    (good rest : list Task.t) (w : World) :
  Forall (fun task => fmt (Task.createdAt task) <> None) good ->
  print_rows fmt (good ++ rest) w
  = print_rows fmt rest
      {| data := data w; disk := disk w;
         stdout := stdout w
                   ++ map (fun task => row task (rendered fmt task)) good |}.
Proof.
  revert w. induction good as [|task r IH]; intros w H; cbn [app map].
  - rewrite List.app_nil_r. now destruct w.
  - inversion H as [|? ? Ht Hr]; subst. cbn [print_rows].
    unfold rendered at 1.
    destruct (fmt (Task.createdAt task)) as [created|]; [|contradiction].
    unfold bind, print. rewrite (IH _ Hr). cbn [data disk stdout].
    now rewrite <- app_assoc.
Qed.

(** X7. When every task to show has a timestamp that renders, [list_tasks]
    prints the header, a rule of 70 dashes, one row for each task to show
    and an empty line, and returns.  The tasks to show are all the tasks
    when the filter is empty, else the tasks whose status equals the
    filter; their rows come in insertion order.  Memory and file are as
    before. *)
Theorem list_prints_table (fmt : string -> option string)
    (status_filter : string) (w : World) :
  selected status_filter (tasks (data w)) <> [] ->
  Forall (fun task => fmt (Task.createdAt task) <> None)
         (selected status_filter (tasks (data w))) ->
  list_tasks fmt status_filter w
  = ({| data := data w; disk := disk w;
        stdout := stdout w ++ [header; dashes 70]
                  ++ map (fun task => row task (rendered fmt task))
                         (selected status_filter (tasks (data w)))
                  ++ [EmptyString] |}, Returned tt).
Proof.
  intros Hne Hall. rewrite (list_tasks_selected fmt _ _ Hne).
  unfold print_table, bind, print. cbn [fst snd data disk stdout].
  rewrite <- (List.app_nil_r (selected status_filter (tasks (data w)))) at 1.
  rewrite (print_rows_upto fmt _ [] _ Hall). cbn [print_rows].
  unfold ret, print. cbn [data disk stdout]. rewrite <- !app_assoc.
  reflexivity.
Qed.

Lemma list_prints_table_witness :
  selected "todo" (tasks (data one_task_world)) <> []
  /\ stdout (fst (list_tasks isoformat_minutes "todo" one_task_world))
     = [header; dashes 70;
        ("1     Buy milk                       "
         ++ "todo         2026-01-02 03:04    ")%string;
        EmptyString].
Proof.
  assert (Hne : selected "todo" (tasks (data one_task_world)) <> [])
    by discriminate.
  split; [exact Hne|].
  rewrite (list_prints_table isoformat_minutes "todo" one_task_world Hne).
  - reflexivity.
  - repeat constructor. discriminate.
Defined.

(** X8. When a task to show has a timestamp that does not render,
    [list_tasks] raises the error of that timestamp after it has printed
    the header, the rule and the rows of the tasks before it; the closing
    empty line is not printed.  Memory and file are as before. *)
Theorem list_stops_at_bad_timestamp (fmt : string -> option string)
    (status_filter : string) (w : World) (good rest : list Task.t)
    (bad : Task.t) :
  selected status_filter (tasks (data w)) = good ++ bad :: rest ->
  Forall (fun task => fmt (Task.createdAt task) <> None) good ->
  fmt (Task.createdAt bad) = None ->
  list_tasks fmt status_filter w
  = ({| data := data w; disk := disk w;
        stdout := stdout w ++ [header; dashes 70]
                  ++ map (fun task => row task (rendered fmt task)) good |},
     Raised (BadTimestamp (Task.createdAt bad))).
Proof.
  intros Hsel Hgood Hbad.
  rewrite (list_tasks_selected fmt); [|rewrite Hsel; now destruct good].
  rewrite Hsel. unfold print_table, bind, print.
  cbn [fst snd data disk stdout].
  rewrite (print_rows_upto fmt _ _ _ Hgood). cbn [print_rows].
  rewrite Hbad. unfold raise. cbn [data disk stdout].
  rewrite <- !app_assoc. reflexivity.
Qed.

Lemma list_stops_at_bad_timestamp_witness :
  isoformat_minutes "yesterday" = None
  /\ list_tasks isoformat_minutes EmptyString
       (fst (new_task "Write report" "yesterday" one_task_world))
     = ({| data := data (fst (new_task "Write report" "yesterday"
                                       one_task_world));
           disk := disk (fst (new_task "Write report" "yesterday"
                                       one_task_world));
           stdout :=
             [header; dashes 70;
              ("1     Buy milk                       "
               ++ "todo         2026-01-02 03:04    ")%string]
        |}, Raised (BadTimestamp "yesterday")).
Proof.
  split; [reflexivity|].
  rewrite (list_stops_at_bad_timestamp isoformat_minutes EmptyString
             (fst (new_task "Write report" "yesterday" one_task_world))
             [{| Task.id := 1; Task.description := "Buy milk";
                 Task.status := "todo";
                 Task.createdAt := "2026-01-02T03:04:05";
                 Task.updatedAt := None |}]
             []
             {| Task.id := 2; Task.description := "Write report";
                Task.status := "todo"; Task.createdAt := "yesterday";
                Task.updatedAt := None |}).
  - reflexivity.
  - reflexivity.
  - repeat constructor. discriminate.
  - reflexivity.
Defined.

(** ** The width of a row *)

Lemma string_length_append (a b : string) :
  String.length (a ++ b)%string = (String.length a + String.length b)%nat.
Proof. induction a as [|c a IH]; cbn; [reflexivity|now rewrite IH]. Qed.

Lemma spaces_length (n : nat) : String.length (spaces n) = n.
Proof. induction n as [|n IH]; cbn; [reflexivity|now rewrite IH]. Qed.

(** [ljust] pads and never cuts. *)
Lemma ljust_length (width : nat) (s : string) :
  String.length (ljust width s) = Nat.max width (String.length s).
Proof. unfold ljust. rewrite string_length_append, spaces_length. lia. Qed.

Lemma take_length (n : nat) (s : string) :
  String.length (take n s) = Nat.min n (String.length s).
Proof.
  revert s. induction n as [|n IH]; intros [|c s]; cbn; try reflexivity.
  now rewrite IH.
Qed.

(** X9. The width of a row does not depend on the description, which takes
    30 columns whatever its length.  A row is 70 characters wide, as the
    rule under the header is, when the identifier has at most 5 digits, the
    status at most 12 characters and the rendered time at most 20; a longer
    field is not cut and widens the row by what it has in excess. *)
Theorem row_width (task : Task.t) (created_date : string) :
  String.length (row task created_date)
  = (Nat.max 5 (String.length (str_of_int (Task.id task)))
     + Nat.max 12 (String.length (Task.status task))
     + Nat.max 20 (String.length created_date) + 33)%nat
  /\ ((String.length (str_of_int (Task.id task)) <= 5)%nat ->
      (String.length (Task.status task) <= 12)%nat ->
      (String.length created_date <= 20)%nat ->
      String.length (row task created_date) = String.length (dashes 70)).
Proof.
  assert (Hrow :
    String.length (row task created_date)
    = (Nat.max 5 (String.length (str_of_int (Task.id task)))
       + Nat.max 12 (String.length (Task.status task))
       + Nat.max 20 (String.length created_date) + 33)%nat).
  { unfold row.
    rewrite !string_length_append, !ljust_length. cbn [String.length].
    destruct (Nat.ltb_spec 27 (String.length (Task.description task)))
      as [Hlong|Hshort].
    - rewrite string_length_append, take_length. cbn [String.length]. lia.
    - lia. }
  split; [exact Hrow|]. intros Hi Hs Hc. rewrite Hrow.
  change (String.length (dashes 70)) with 70%nat. lia.
Qed.

Lemma row_width_witness :
  (String.length (str_of_int 12) <= 5)%nat
  /\ (String.length "in-progress" <= 12)%nat
  /\ (String.length "2026-01-02 03:04" <= 20)%nat
  /\ String.length
       (row {| Task.id := 12;
               Task.description :=
                 "Write a very long report about everything";
               Task.status := "in-progress";
               Task.createdAt := "2026-01-02T03:04:05";
               Task.updatedAt := None |} "2026-01-02 03:04")
     = String.length (dashes 70).
Proof.
  assert (Hi : (String.length (str_of_int 12) <= 5)%nat) by (cbn; lia).
  assert (Hs : (String.length "in-progress" <= 12)%nat) by (cbn; lia).
  assert (Hc : (String.length "2026-01-02 03:04" <= 20)%nat) by (cbn; lia).
  split; [exact Hi|]. split; [exact Hs|]. split; [exact Hc|].
  exact (proj2 (row_width
                  {| Task.id := 12;
                     Task.description :=
                       "Write a very long report about everything";
                     Task.status := "in-progress";
                     Task.createdAt := "2026-01-02T03:04:05";
                     Task.updatedAt := None |} "2026-01-02 03:04")
               Hi Hs Hc).
Defined.

(** * The dispatcher *)

Lemma say_same_store (line : string) (w : World) : same_store (say line w) w.
Proof. split; reflexivity. Qed.

Lemma same_store_trans (w1 w2 w3 : World) :
  same_store w1 w2 -> same_store w2 w3 -> same_store w1 w3.
Proof. intros [H1 H2] [H3 H4]. split; congruence. Qed.

Lemma print_usage_same_store (w : World) :
  same_store (TaskTrackerCli._print_usage w) w.
Proof. split; reflexivity. Qed.

(** A method of the dispatcher leaves memory and file as the store method
    it calls left them, when what it does next is printing. *)
Lemma call_same_store {A : Type} (c : M A) (k : A -> World -> World)
    (w : World) :
  (forall a w0, same_store (k a w0) w0) ->
  same_store (fst (TaskTrackerCli.call c k w)) (fst (c w)).
Proof.
  intros Hk. unfold TaskTrackerCli.call.
  destruct (c w) as [w' [a|e]]; cbn [fst]; [apply Hk|split; reflexivity].
Qed.

Lemma fst_bind_ret {A B : Type} (c : M A) (g : A -> B) (w : World) :
  fst (bind c (fun a => ret (g a)) w) = fst (c w).
Proof. unfold bind, ret. now destruct (c w) as [w' [a|e]]. Qed.

(** What [dispatch] does to memory and file is what the operation of the
    command line does. *)
Lemma dispatch_effect (fmt : string -> option string)
    (err : string -> string) (program action : string)
    (options : list string) (now : string) (w : World) :
  same_store
    (fst (TaskTrackerCli.dispatch fmt action options now w))
    (fst (run fmt (operation_of (program :: action :: options) now) w)).
Proof.
  unfold TaskTrackerCli.dispatch, operation_of.
  assert (Hone : forall o, fst (run fmt [o] w) = fst (perform fmt o w)).
  { intros o. cbn [run]. now destruct (perform fmt o w). }
  assert (Hsay : forall (A : Type) text (a : A) w0,
             same_store (say (text a) w0) w0).
  { intros. apply say_same_store. }
  destruct (String.eqb action "add").
  { unfold TaskTrackerCli.add_task.
    destruct options as [|description r]; [split; reflexivity|].
    rewrite Hone. cbn [perform]. rewrite fst_bind_ret.
    apply call_same_store. intros; apply say_same_store. }
  destruct (String.eqb action "update").
  { unfold TaskTrackerCli.update_task.
    destruct options as [|task_id [|description r]];
      [split; reflexivity|split; reflexivity|].
    rewrite Hone. cbn [perform]. rewrite fst_bind_ret.
    apply call_same_store. intros; apply say_same_store. }
  destruct (String.eqb action "delete").
  { unfold TaskTrackerCli.delete_task.
    destruct options as [|task_id r]; [split; reflexivity|].
    rewrite Hone. cbn [perform]. rewrite fst_bind_ret.
    apply call_same_store. intros; apply say_same_store. }
  destruct (String.eqb action "mark-in-progress").
  { unfold TaskTrackerCli.mark_task.
    destruct options as [|task_id r]; [split; reflexivity|].
    rewrite Hone. cbn [perform]. rewrite fst_bind_ret.
    apply call_same_store. intros; apply say_same_store. }
  destruct (String.eqb action "mark-done").
  { unfold TaskTrackerCli.mark_task.
    destruct options as [|task_id r]; [split; reflexivity|].
    rewrite Hone. cbn [perform]. rewrite fst_bind_ret.
    apply call_same_store. intros; apply say_same_store. }
  destruct (String.eqb action "list").
  { destruct options as [|f r]; rewrite Hone; cbn [perform];
      rewrite fst_bind_ret; apply call_same_store; split; reflexivity. }
  cbn [fst run].
  eapply same_store_trans; [apply print_usage_same_store|].
  apply say_same_store.
Qed.

Lemma operation_of_short (argv : list string) (now : string) :
  (List.length (operation_of argv now) <= 1)%nat.
Proof.
  unfold operation_of. destruct argv as [|program [|action options]];
    cbn [List.length]; try lia.
  repeat match goal with
         | |- context [if ?b then _ else _] => destruct b
         end;
    repeat match goal with
           | |- context [match ?l with [] => _ | _ :: _ => _ end] =>
               destruct l
           end; cbn [List.length]; lia.
Qed.

Lemma execute_effect (fmt : string -> option string)
    (err : string -> string) (argv : list string) (now : string)
    (w : World) :
  same_store (TaskTrackerCli.execute fmt err argv now w)
             (fst (run fmt (operation_of argv now) w)).
Proof.
  destruct argv as [|program [|action options]];
    try apply print_usage_same_store.
  unfold TaskTrackerCli.execute.
  pose proof (dispatch_effect fmt err program action options now w) as H.
  destruct (TaskTrackerCli.dispatch fmt action options now w)
    as [w' [|e]]; cbn [fst] in H; [exact H|].
  eapply same_store_trans; [apply say_same_store|exact H].
Qed.

(** X10. One command, at most one operation of the store.  Whatever the
    command line, what [execute] does to the tasks, the counter and the
    file is what the store operation named by the action and its first
    operands does, or nothing when the action is missing or unknown or an
    operand is missing.  No error leaves [execute]. *)
Theorem execute_is_one_operation (fmt : string -> option string)
    (err : string -> string) (argv : list string) (now : string)
    (w : World) :
  (List.length (operation_of argv now) <= 1)%nat
  /\ data (TaskTrackerCli.execute fmt err argv now w)
     = data (fst (run fmt (operation_of argv now) w))
  /\ disk (TaskTrackerCli.execute fmt err argv now w)
     = disk (fst (run fmt (operation_of argv now) w)).
Proof.
  split; [apply operation_of_short|].
  destruct (execute_effect fmt err argv now w) as [Hd Hk].
  split; [exact Hd|exact Hk].
Qed.

Lemma bind_ret_outcome {A B : Type} (c : M A) (g : A -> B) (w : World) :
  snd (bind c (fun a => ret (g a)) w)
  = match snd (c w) with
    | Returned a => Returned (g a)
    | Raised e => Raised e
    end.
Proof. unfold bind, ret. now destruct (c w) as [w' [a|e]]. Qed.

Lemma perform_stdout (fmt : string -> option string) (o : operation)
    (w : World) :
  mutates o = true -> stdout (fst (perform fmt o w)) = stdout w.
Proof.
  destruct o as [description now|task_id description status now|task_id|f];
    cbn [perform mutates]; unfold bind; [| | |discriminate]; intros _.
  - destruct (all_space description) eqn:H.
    + now rewrite (new_task_blank _ _ _ H).
    + now rewrite (new_task_valid _ _ _ H).
  - rewrite update_task_cases.
    destruct (int_of_arg task_id) as [n|]; [|reflexivity].
    destruct (status_accepted status); [|reflexivity].
    destruct (update_first n description status now (tasks (data w)))
      as [ts [|]]; reflexivity.
  - rewrite delete_task_cases.
    destruct (int_of_arg task_id) as [n|]; [|reflexivity].
    cbv zeta. destruct (_ =? _)%nat; reflexivity.
Qed.

(** What a method of the dispatcher reports after a mutation of the
    store. *)
Lemma call_reports (fmt : string -> option string) (err : string -> string)
    {A : Type} (c : M A) (g : A -> option Z) (o : operation)
    (text : A -> string) (w : World) :
  mutates o = true ->
  perform fmt o = bind c (fun a => ret (g a)) ->
  (forall a, begins "Task " (text a) = true) ->
  reports_once w
    (settle err (TaskTrackerCli.call c (fun a => say (text a)) w)).
Proof.
  intros Hm Hp Htext.
  pose proof (perform_effect fmt o w) as He.
  pose proof (perform_stdout fmt o w Hm) as Hs.
  cbv zeta in He. rewrite Hm, Hp, fst_bind_ret, bind_ret_outcome in He.
  rewrite Hp, fst_bind_ret in Hs.
  unfold TaskTrackerCli.call, settle, reports_once.
  destruct (c w) as [w1 [a|e]]; cbn [fst snd] in *.
  - exists (text a). unfold say, print. cbn [fst data disk stdout].
    rewrite Hs. split; [reflexivity|]. right. split; [apply Htext|exact He].
  - eexists. unfold say, print. cbn [fst data disk stdout].
    rewrite Hs. split; [reflexivity|]. left.
    split; [reflexivity|exact He].
Qed.

Lemma missing_operand_reports (err : string -> string) (text : string)
    (w : World) :
  reports_once w
    (settle err
       (w, TaskTrackerCli.Failed (TaskTrackerCli.MissingOperand text))).
Proof.
  eexists. split; [reflexivity|]. left. repeat split.
Qed.

Lemma mark_task_reports (fmt : string -> option string)
    (err : string -> string) (status : string) (options : list string)
    (now : string) (w : World) :
  reports_once w (settle err (TaskTrackerCli.mark_task status options now w)).
Proof.
  unfold TaskTrackerCli.mark_task.
  destruct options as [|task_id r]; [apply missing_operand_reports|].
  apply (call_reports fmt err
           (update_task (IdStr task_id) EmptyString (Some status) now)
           (fun _ => @None Z)
           (Update (IdStr task_id) EmptyString (Some status) now));
    reflexivity.
Qed.

(** X11. Each of the commands [add], [update], [delete],
    [mark-in-progress] and [mark-done] prints exactly one line.  Either the
    line starts with [Error: ], and then tasks, counter and file are what
    they were; or it starts with [Task ], and then the file has been
    written once, with the state the store now has.  A missing operand is
    an error of the first kind. *)
Theorem command_reports_one_line (fmt : string -> option string)
    (err : string -> string) (program action : string)
    (options : list string) (now : string) (w : World) :
  mutation_action action = true ->
  let w' := TaskTrackerCli.execute fmt err (program :: action :: options)
                                   now w in
  exists line,
    stdout w' = stdout w ++ [line]
    /\ ((begins "Error: " line = true
         /\ data w' = data w /\ disk w' = disk w)
        \/ (begins "Task " line = true
            /\ disk w' = dump (to_json (data w')) (disk w))).
Proof.
  unfold mutation_action. cbn [existsb]. intros Hact. cbv zeta.
  change (reports_once w
            (settle err (TaskTrackerCli.dispatch fmt action options now w))).
  unfold TaskTrackerCli.dispatch.
  destruct (String.eqb action "add").
  { unfold TaskTrackerCli.add_task.
    destruct options as [|description r]; [apply missing_operand_reports|].
    apply (call_reports fmt err (new_task description now) Some
             (Create description now)); reflexivity. }
  destruct (String.eqb action "update").
  { unfold TaskTrackerCli.update_task.
    destruct options as [|task_id [|description r]];
      try apply missing_operand_reports.
    apply (call_reports fmt err
             (update_task (IdStr task_id) description None now)
             (fun _ => @None Z)
             (Update (IdStr task_id) description None now)); reflexivity. }
  destruct (String.eqb action "delete").
  { unfold TaskTrackerCli.delete_task.
    destruct options as [|task_id r]; [apply missing_operand_reports|].
    apply (call_reports fmt err (delete_task (IdStr task_id))
             (fun _ => @None Z) (Delete (IdStr task_id))); reflexivity. }
  destruct (String.eqb action "mark-in-progress");
    [apply (mark_task_reports fmt)|].
  destruct (String.eqb action "mark-done"); [apply (mark_task_reports fmt)|].
  discriminate Hact.
Qed.

Lemma command_reports_one_line_witness :
  mutation_action "delete" = true
  /\ exists line,
       stdout (TaskTrackerCli.execute isoformat_minutes (fun s => s)
                 ["task-cli"; "delete"; "7"] "2026-01-02T03:04:05"
                 one_task_world)
       = stdout one_task_world ++ [line].
Proof.
  split; [reflexivity|].
  destruct (command_reports_one_line isoformat_minutes (fun s => s)
              "task-cli" "delete" ["7"] "2026-01-02T03:04:05"
              one_task_world eq_refl) as (line & H & _).
  exists line. exact H.
Defined.

(** X12. The commands [mark-in-progress] and [mark-done], given an
    identifier that some task carries, set the status of the first task
    with that identifier to [in-progress] or [done] and its [updatedAt] to
    the current time, leave its description and every other task alone,
    persist the state and print that the task was marked. *)
Theorem mark_sets_status (fmt : string -> option string)
    (err : string -> string) (program action status task_id : string)
    (extra : list string) (now : string) (w : World) (n : Z) :
  (action = "mark-in-progress" /\ status = "in-progress")
  \/ (action = "mark-done" /\ status = "done") ->
  int_of_str task_id = Some n ->
  In n (map Task.id (tasks (data w))) ->
  exists before task after,
    tasks (data w) = before ++ task :: after
    /\ ~ In n (map Task.id before)
    /\ Task.id task = n
    /\ TaskTrackerCli.execute fmt err (program :: action :: task_id :: extra)
                              now w
       = (let d := {| tasks :=
                        before ++
                        {| Task.id := n;
                           Task.description := Task.description task;
                           Task.status := status;
                           Task.createdAt := Task.createdAt task;
                           Task.updatedAt := Some now |} :: after;
                      count := count (data w) |} in
          {| data := d; disk := dump (to_json d) (disk w);
             stdout := stdout w
                       ++ [("Task " ++ task_id ++ " marked as '" ++ status
                            ++ "' successfully")%string] |}).
Proof.
  intros Hact Hid HIn.
  destruct (update_first_present n EmptyString (Some status) now _ HIn)
    as (before & task & after & Ets & Hb & Ht & Hu).
  exists before, task, after. repeat split; auto.
  assert (Hmark :
    settle err (TaskTrackerCli.mark_task status (task_id :: extra) now w)
    = (let d := {| tasks :=
                     before ++
                     {| Task.id := n;
                        Task.description := Task.description task;
                        Task.status := status;
                        Task.createdAt := Task.createdAt task;
                        Task.updatedAt := Some now |} :: after;
                   count := count (data w) |} in
       {| data := d; disk := dump (to_json d) (disk w);
          stdout := stdout w
                    ++ [("Task " ++ task_id ++ " marked as '" ++ status
                         ++ "' successfully")%string] |})).
  { unfold TaskTrackerCli.mark_task, TaskTrackerCli.call, settle.
    rewrite update_task_cases. cbn [int_of_arg]. rewrite Hid.
    assert (Hok : status_accepted (Some status) = true)
      by (destruct Hact as [[_ ->]|[_ ->]]; reflexivity).
    assert (Hp : provided (Some status) = true)
      by (destruct Hact as [[_ ->]|[_ ->]]; reflexivity).
    rewrite Hok, Hu. cbv beta iota zeta. unfold apply_update.
    rewrite Hp. cbn [truthy Task.id Task.description Task.status
                     Task.createdAt Task.updatedAt].
    rewrite Ht. reflexivity. }
  destruct Hact as [[-> ->]|[-> ->]]; exact Hmark.
Qed.

Lemma mark_sets_status_witness :
  int_of_str "1" = Some 1%Z
  /\ map Task.status
       (tasks (data (TaskTrackerCli.execute isoformat_minutes (fun s => s)
                       ["task-cli"; "mark-done"; "1"] "2026-01-02T04:00:00"
                       one_task_world)))
     = ["done"].
Proof.
  split; [reflexivity|].
  destruct (mark_sets_status isoformat_minutes (fun s => s) "task-cli"
              "mark-done" "done" "1" [] "2026-01-02T04:00:00" one_task_world
              1%Z (or_intror (conj eq_refl eq_refl)) eq_refl
              (or_introl eq_refl))
    as (before & task & after & Ets & Hb & Ht & Hex).
  rewrite Hex. cbv zeta. cbn [data tasks].
  destruct before as [|t0 [|t1 before]]; cbn in Ets.
  - injection Ets as _ <-. reflexivity.
  - injection Ets as E _. exfalso. apply Hb. left. now rewrite <- E.
  - discriminate.
Defined.

(** * Runs of the program *)

Lemma synced_same_store (w1 w2 : World) :
  same_store w1 w2 -> synced w2 -> synced w1.
Proof. unfold synced. intros [-> ->]. auto. Qed.

Lemma perform_same_store (fmt : string -> option string) (o : operation)
    (w1 w2 : World) :
  same_store w1 w2 ->
  same_store (fst (perform fmt o w1)) (fst (perform fmt o w2)).
Proof.
  intros [Hd Hk]. unfold same_store.
  destruct o as [description now|task_id description status now|task_id|f];
    cbn [perform]; unfold bind.
  - destruct (all_space description) eqn:H.
    + rewrite !(new_task_blank _ _ _ H). auto.
    + rewrite !(new_task_valid _ _ _ H). cbn. now rewrite Hd, Hk.
  - rewrite !update_task_cases.
    destruct (int_of_arg task_id) as [n|]; [|auto].
    destruct (status_accepted status); [|auto].
    rewrite Hd.
    destruct (update_first n description status now (tasks (data w2)))
      as [ts [|]]; cbn; now rewrite Hk.
  - rewrite !delete_task_cases.
    destruct (int_of_arg task_id) as [n|]; [|auto].
    cbv zeta. rewrite Hd. destruct (_ =? _)%nat; cbn; now rewrite Hk.
  - destruct (list_tasks_frame fmt f w1) as [Hd1 Hk1].
    destruct (list_tasks_frame fmt f w2) as [Hd2 Hk2].
    destruct (list_tasks fmt f w1) as [w1' [u1|e1]];
      destruct (list_tasks fmt f w2) as [w2' [u2|e2]]; cbn in *;
      split; congruence.
Qed.

Lemma run_same_store (fmt : string -> option string) (ops : list operation)
    (w1 w2 : World) :
  same_store w1 w2 ->
  same_store (fst (run fmt ops w1)) (fst (run fmt ops w2)).
Proof.
  revert w1 w2. induction ops as [|o r IH]; intros w1 w2 H; cbn [run];
    [exact H|].
  pose proof (perform_same_store fmt o w1 w2 H) as H1.
  destruct (perform fmt o w1) as [w1' r1].
  destruct (perform fmt o w2) as [w2' r2]. cbn [fst] in H1.
  specialize (IH w1' w2' H1).
  destruct (run fmt r w1') as [w1'' rest1].
  destruct (run fmt r w2') as [w2'' rest2]. exact IH.
Qed.

Lemma same_store_sym (w1 w2 : World) : same_store w1 w2 -> same_store w2 w1.
Proof. intros [H1 H2]. split; congruence. Qed.

Lemma execute_same_store (fmt : string -> option string)
    (err : string -> string) (argv : list string) (now : string)
    (w1 w2 : World) :
  same_store w1 w2 ->
  same_store (TaskTrackerCli.execute fmt err argv now w1)
             (TaskTrackerCli.execute fmt err argv now w2).
Proof.
  intros H.
  eapply same_store_trans; [apply execute_effect|].
  eapply same_store_trans; [apply run_same_store, H|].
  apply same_store_sym, execute_effect.
Qed.

Lemma execute_synced (fmt : string -> option string)
    (err : string -> string) (argv : list string) (now : string)
    (w : World) :
  synced w -> synced (TaskTrackerCli.execute fmt err argv now w).
Proof.
  intros H. eapply synced_same_store; [apply execute_effect|].
  now apply run_synced.
Qed.

Lemma commands_same_store (fmt : string -> option string)
    (err : string -> string) (invocations : list (list string * string))
    (w1 w2 : World) :
  same_store w1 w2 ->
  same_store (commands fmt err invocations w1)
             (commands fmt err invocations w2).
Proof.
  revert w1 w2. unfold commands.
  induction invocations as [|inv r IH]; intros w1 w2 H; cbn [fold_left];
    [exact H|].
  apply IH, execute_same_store, H.
Qed.

(** A run of the program on the file of a store in sync is a run of the
    dispatcher on that store, with nothing printed yet. *)
Lemma main_synced (fmt : string -> option string) (err : string -> string)
    (argv : list string) (now : string) (w : World) :
  synced w ->
  main fmt err argv now (disk w)
  = Exited (TaskTrackerCli.execute fmt err argv now
              {| data := data w; disk := disk w; stdout := [] |}).
Proof.
  intros H. unfold main. now rewrite (init_synced w H), of_json_to_json.
Qed.

Lemma commands_cons (fmt : string -> option string)
    (err : string -> string) (argv : list string) (now : string)
    (r : list (list string * string)) (w : World) :
  commands fmt err ((argv, now) :: r) w
  = commands fmt err r (TaskTrackerCli.execute fmt err argv now w).
Proof. reflexivity. Qed.

Lemma sessions_synced (fmt : string -> option string)
    (err : string -> string) (invocations : list (list string * string))
    (w : World) :
  synced w ->
  sessions fmt err invocations (disk w)
  = Some (disk (commands fmt err invocations w))
  /\ synced (commands fmt err invocations w).
Proof.
  revert w. induction invocations as [|[argv now] r IH]; intros w H.
  - split; [reflexivity|exact H].
  - cbn [sessions]. rewrite (main_synced fmt err argv now w H).
    set (w0 := {| data := data w; disk := disk w; stdout := [] |}).
    assert (H0 : same_store w0 w) by (split; reflexivity).
    assert (Hs0 : synced (TaskTrackerCli.execute fmt err argv now w0)).
    { apply execute_synced. exact H. }
    destruct (IH _ Hs0) as [IHs IHy].
    pose proof (commands_same_store fmt err r _ _
                  (execute_same_store fmt err argv now w0 w H0)) as Hsame.
    rewrite commands_cons. split.
    + rewrite IHs. f_equal. apply Hsame.
    + eapply synced_same_store; [apply same_store_sym, Hsame|exact IHy].
Qed.

(** X13. Restarting between commands changes nothing.  From an absent
    file, any number of runs of the program, one command each, all exit
    normally, and they leave the file that one dispatcher given the same
    commands in a row leaves; that file holds the state this dispatcher
    has in memory, so the next run starts from it. *)
Theorem restarts_are_transparent (fmt : string -> option string)
    (err : string -> string) (invocations : list (list string * string)) :
  invocations <> [] ->
  sessions fmt err invocations {| content := None; writes := 0 |}
  = Some (disk (commands fmt err invocations fresh_world))
  /\ init (disk (commands fmt err invocations fresh_world))
     = Started (to_json (data (commands fmt err invocations fresh_world)))
               (disk (commands fmt err invocations fresh_world)).
Proof.
  destruct invocations as [|[argv now] r]; [contradiction|]. intros _.
  assert (Hfresh : synced fresh_world) by reflexivity.
  assert (H1 : synced (TaskTrackerCli.execute fmt err argv now fresh_world))
    by now apply execute_synced.
  destruct (sessions_synced fmt err r _ H1) as [Hs Hy].
  split.
  - cbn [sessions]. change (main fmt err argv now _)
      with (Exited (TaskTrackerCli.execute fmt err argv now fresh_world)).
    exact Hs.
  - apply init_synced. exact Hy.
Qed.

Lemma restarts_are_transparent_witness :
  [(["task-cli"; "add"; "Buy milk"], "2026-01-02T03:04:05");
   (["task-cli"; "mark-done"; "1"], "2026-01-02T04:00:00")] <> []
  /\ sessions isoformat_minutes (fun s => s)
       [(["task-cli"; "add"; "Buy milk"], "2026-01-02T03:04:05");
        (["task-cli"; "mark-done"; "1"], "2026-01-02T04:00:00")]
       {| content := None; writes := 0 |}
     = Some (disk (commands isoformat_minutes (fun s => s)
                     [(["task-cli"; "add"; "Buy milk"],
                       "2026-01-02T03:04:05");
                      (["task-cli"; "mark-done"; "1"],
                       "2026-01-02T04:00:00")] fresh_world)).
Proof.
  assert (Hne : [(["task-cli"; "add"; "Buy milk"], "2026-01-02T03:04:05");
                 (["task-cli"; "mark-done"; "1"], "2026-01-02T04:00:00")]
                <> []) by discriminate.
  split; [exact Hne|].
  exact (proj1 (restarts_are_transparent isoformat_minutes (fun s => s)
                  _ Hne)).
Defined.

(** ** The constructor, twice *)

Lemma init_after_default (dk : Disk) :
  init (dump default_data dk) = Started default_data (dump default_data dk).
Proof. reflexivity. Qed.

(** X14. The constructor is idempotent: run again on the file it has left,
    it starts from the same document and leaves the file as it is.  In
    particular a file the constructor has accepted or written is never
    written by the next constructor. *)
Theorem init_is_idempotent (dk dk' : Disk) (v : json) :
  init dk = Started v dk' -> init dk' = Started v dk'.
Proof.
  intros H. pose proof H as H0. unfold init in H.
  destruct (content dk) as [t|] eqn:Ec.
  - destruct t as [|c t].
    + injection H as <- <-. apply init_after_default.
    + destruct (json_loads (c :: t)) as [loaded|] eqn:El.
      * destruct (py_in (code "tasks") loaded) as [[|]|]; try discriminate.
        -- destruct (py_in (code "count") loaded) as [[|]|];
             try discriminate; injection H as <- <-; exact H0.
        -- injection H as <- <-. exact H0.
      * injection H as <- <-. apply init_after_default.
  - injection H as <- <-. apply init_after_default.
Qed.

Lemma init_is_idempotent_witness :
  init {| content := None; writes := 0 |}
  = Started default_data (dump default_data {| content := None; writes := 0 |})
  /\ init (dump default_data {| content := None; writes := 0 |})
     = Started default_data
               (dump default_data {| content := None; writes := 0 |}).
Proof.
  split; [reflexivity|].
  exact (init_is_idempotent {| content := None; writes := 0 |} _ _ eq_refl).
Defined.

(** ** The counter *)

Lemma update_first_length (n : Z) (description : string)
    (status : option string) (now : string) (ts : list Task.t) :
  List.length (fst (update_first n description status now ts))
  = List.length ts.
Proof.
  rewrite <- (length_map Task.id), update_first_ids. apply length_map.
Qed.

Lemma perform_length (fmt : string -> option string) (o : operation)
    (w : World) :
  (List.length (tasks (data (fst (perform fmt o w))))
   <= List.length (tasks (data w)) + if valid_create o then 1 else 0)%nat.
Proof.
  pose proof (perform_result fmt o w) as Hr.
  destruct (perform_data fmt o w)
    as [E|[(description & now & E)|[(n & description & status & now & E)
                                   |(n & E)]]];
    cbv zeta in E; rewrite E; cbn [tasks].
  - lia.
  - destruct (valid_create o).
    + rewrite length_app. cbn. lia.
    + destruct Hr as [_ Hc]. rewrite E in Hc. cbn in Hc. lia.
  - rewrite update_first_length. lia.
  - pose proof (filter_length_le
                  (fun task => negb (Task.id task =? n)%Z) (tasks (data w))).
    unfold without. lia.
Qed.

(** X15. The counter counts the creations: after a run of operations it has
    grown by the number of creations with a description that is not blank,
    whatever was updated, deleted, listed or refused in between; and the
    number of tasks has grown by at most as much. *)
Theorem counter_counts_creations (fmt : string -> option string)
    (ops : list operation) (w : World) :
  count (data (fst (run fmt ops w)))
  = (count (data w) + Z.of_nat (List.length (filter valid_create ops)))%Z
  /\ (List.length (tasks (data (fst (run fmt ops w))))
      <= List.length (tasks (data w))
         + List.length (filter valid_create ops))%nat.
Proof.
  revert w. induction ops as [|o r IH]; intros w; cbn [run filter].
  - cbn. split; lia.
  - pose proof (perform_result fmt o w) as Hr.
    pose proof (perform_length fmt o w) as Hl.
    destruct (perform fmt o w) as [w1 res]. cbn [fst snd] in *.
    destruct (IH w1) as [IHc IHl].
    destruct (run fmt r w1) as [w2 rest]. cbn [fst] in *.
    destruct (valid_create o); destruct Hr as [_ Hc];
      cbn [List.length]; split; lia.
Qed.

(** ** What the constructor accepts *)

Lemma existsb_str (x : text) (xs : list json) :
  In (JStr x) xs ->
  existsb (fun v => match v with
                    | JStr s => text_eqb s x
                    | _ => false
                    end) xs = true.
Proof.
  intros H. apply existsb_exists. exists (JStr x). split; [exact H|].
  apply text_eqb_refl.
Qed.

(** X16. The check of the constructor is a membership test, not a key
    lookup: a file whose document is a list that holds the strings [tasks]
    and [count], or a string that holds both words, passes it, and the
    document becomes the data of the store as it is, though it is no
    dictionary. *)
Theorem init_accepts_non_dictionaries (dk : Disk) (t : text) (v : json) :
  content dk = Some t ->
  json_loads t = Some v ->
  (exists xs, v = JArr xs /\ In (JStr (code "tasks")) xs
              /\ In (JStr (code "count")) xs)
  \/ (exists s, v = JStr s /\ is_substring (code "tasks") s = true
                /\ is_substring (code "count") s = true) ->
  init dk = Started v dk.
Proof.
  intros Hc Hl Hv. apply (init_loaded dk t v Hc Hl).
  - destruct Hv as [(xs & -> & Ht & _)|(s & -> & Ht & _)]; cbn [py_in].
    + now rewrite existsb_str.
    + now rewrite Ht.
  - destruct Hv as [(xs & -> & _ & Hk)|(s & -> & _ & Hk)]; cbn [py_in].
    + now rewrite existsb_str.
    + now rewrite Hk.
Qed.

Lemma init_accepts_non_dictionaries_witness :
  json_loads (code ("[1, " ++ dquote ++ "count" ++ dquote ++ ", "
                    ++ dquote ++ "tasks" ++ dquote ++ "]"))
  = Some (JArr [JInt 1; JStr (code "count"); JStr (code "tasks")])
  /\ init {| content :=
               Some (code ("[1, " ++ dquote ++ "count" ++ dquote ++ ", "
                           ++ dquote ++ "tasks" ++ dquote ++ "]"));
             writes := 0 |}
     = Started (JArr [JInt 1; JStr (code "count"); JStr (code "tasks")])
               {| content :=
                    Some (code ("[1, " ++ dquote ++ "count" ++ dquote ++ ", "
                                ++ dquote ++ "tasks" ++ dquote ++ "]"));
                  writes := 0 |}.
Proof.
  split; [reflexivity|].
  apply (init_accepts_non_dictionaries
           _ (code ("[1, " ++ dquote ++ "count" ++ dquote ++ ", "
                    ++ dquote ++ "tasks" ++ dquote ++ "]")));
    [reflexivity|reflexivity|].
  left. eexists. split; [reflexivity|]. cbn. auto.
Defined.
